(** * tuannha-blog: the post listing and the presentational components

    A shallow embedding of the blog's React components ([Home], [PostCard],
    [Tag], [Navigation], [Profile], [Footer]) and of the VitePress navigation
    table, together with the parts of the JavaScript platform they call:
    [Array.prototype.sort], [new Date(string)], and date-fns' [compareDesc],
    [parseISO] and [format]. *)

From Stdlib Require Import ZArith List String Ascii Bool Lia Permutation Sorted.
From Stdlib Require Import DecimalString.
Import ListNotations.

Set Warnings "-register-all".

Local Open Scope string_scope.
Local Open Scope list_scope.
Local Open Scope Z_scope.

(** ** JavaScript numbers and time values

    The only numbers the listing computes with are time values (integral
    milliseconds since the epoch), their differences, and the comparator
    results -1, 0, 1; all are integers that a double holds exactly (or whose
    sign it keeps), so a number is an integer or [NaN]. *)

Module JS.

Inductive number : Type :=
| NaN
| Num (z : Z).

Definition sub (a b : number) : number :=
  match a, b with
  | Num x, Num y => Num (x - y)
  | _, _ => NaN
  end.

(** [a > b] and [a < b]: every comparison with [NaN] is false. *)
Definition gt (a b : number) : bool :=
  match a, b with
  | Num x, Num y => x >? y
  | _, _ => false
  end.

Definition lt (a b : number) : bool :=
  match a, b with
  | Num x, Num y => x <? y
  | _, _ => false
  end.

Definition ge (a b : number) : bool :=
  match a, b with
  | Num x, Num y => x >=? y
  | _, _ => false
  end.

(** What a call can do besides returning: throw. *)
Inductive Exception : Type :=
| RangeError (message : string).

Inductive result (A : Type) : Type :=
| Ok (a : A)
| Throw (e : Exception).

Arguments Ok {A} a.
Arguments Throw {A} e.

End JS.

Import JS.

(** ** ECMAScript dates (ECMA-262, Date objects)

    Time zone adjustment is the host's: [LocalTZA t isUTC] of the standard is
    a parameter of the functions that read or build local time.  Dates here
    have four-digit years, far inside the range where [TimeClip] is the
    identity, so [TimeClip] is not modelled. *)

Module ES.

Definition msPerDay : Z := 86400000.

Definition Day (t : Z) : Z := t / msPerDay.

Definition TimeWithinDay (t : Z) : Z := t mod msPerDay.

Definition DayFromYear (y : Z) : Z :=
  365 * (y - 1970) + (y - 1969) / 4 - (y - 1901) / 100 + (y - 1601) / 400.

Definition InLeapYear (y : Z) : bool :=
  ((y mod 4 =? 0) && negb (y mod 100 =? 0)) || (y mod 400 =? 0).

(** Days in month [m] (0 = January) of year [y]. *)
Definition DaysInMonth (y m : Z) : Z :=
  match m with
  | 1 => if InLeapYear y then 29 else 28
  | 3 | 5 | 8 | 10 => 30
  | _ => 31
  end.

Fixpoint DaysBeforeMonth (y : Z) (m : nat) : Z :=
  match m with
  | O => 0
  | S m' => DaysBeforeMonth y m' + DaysInMonth y (Z.of_nat m')
  end.

(** [MakeDay(year, month, date)] with a 0-based month. *)
Definition MakeDay (year month date : Z) : Z :=
  let ym := year + month / 12 in
  let mn := month mod 12 in
  DayFromYear ym + DaysBeforeMonth ym (Z.to_nat mn) + date - 1.

Definition MakeTime (hour min sec ms : Z) : Z :=
  hour * 3600000 + min * 60000 + sec * 1000 + ms.

Definition MakeDate (day time : Z) : Z := day * msPerDay + time.

(** The civil date of day number [days]: (year, 0-based month, day of month). *)
Definition CivilFromDay (days : Z) : Z * Z * Z :=
  let z := days + 719468 in
  let era := z / 146097 in
  let doe := z - era * 146097 in
  let yoe := (doe - doe / 1460 + doe / 36524 - doe / 146096) / 365 in
  let doy := doe - (365 * yoe + yoe / 4 - yoe / 100) in
  let mp := (5 * doy + 2) / 153 in
  let d := doy - (153 * mp + 2) / 5 + 1 in
  let m := if mp <? 10 then mp + 3 else mp - 9 in
  let y := yoe + era * 400 + (if m <=? 2 then 1 else 0) in
  (y, m - 1, d).

Definition YearFromTime (t : Z) : Z := fst (fst (CivilFromDay (Day t))).
Definition MonthFromTime (t : Z) : Z := snd (fst (CivilFromDay (Day t))).
Definition DateFromTime (t : Z) : Z := snd (CivilFromDay (Day t)).

Section HostTimeZone.

Variable LocalTZA : Z -> bool -> Z.

Definition LocalTime (t : Z) : Z := t + LocalTZA t true.

Definition UTC (t : Z) : Z := t - LocalTZA t false.

(** [Date.prototype.setFullYear(year, month, date)] on time value [t0]. *)
Definition setFullYear (t0 year month date : Z) : Z :=
  let t := LocalTime t0 in
  UTC (MakeDate (MakeDay year month date) (TimeWithinDay t)).

(** [Date.prototype.setHours(hour, min, sec, ms)] on time value [t0]. *)
Definition setHours (t0 hour min sec ms : Z) : Z :=
  let t := LocalTime t0 in
  UTC (MakeDate (Day t) (MakeTime hour min sec ms)).

End HostTimeZone.

End ES.

(** ** ISO-8601 date strings

    A post's date is an ISO-8601 string.  Two forms are modelled: the
    calendar date [YYYY-MM-DD] and the instant [YYYY-MM-DDTHH:mm:ss.sssZ]
    that [Date.prototype.toISOString] prints.  Both are instances of the
    ECMAScript date-time string format and of the formats date-fns'
    [parseISO] reads, and both functions accept them only with a month, day
    and time of day that exist (the end-of-day hour 24 is left out).

    Other spellings are beyond the model: a time without milliseconds, an
    offset in place of [Z], a local time, and whatever else an engine's
    [Date.parse] accepts outside the standard format.  For them [parse]
    answers [None], which is the platform's Invalid Date only where both
    functions reject the string as well; that is so of a string without a
    decimal digit ([noDigit] below).  Every property of this development is
    therefore stated for dates of the two forms ([validPost]) or for dates
    without a digit. *)

Module Iso.

Record TimeOfDay : Type := {
  hours : Z;
  minutes : Z;
  seconds : Z;
  milliseconds : Z
}.

(** [time = None] for the date-only form, [Some _] for the UTC instant. *)
Record DateString : Type := {
  year : Z;
  month : Z;  (* 1 .. 12 *)
  day : Z;    (* 1 .. days in month *)
  time : option TimeOfDay
}.

Definition digit (c : ascii) : option Z :=
  let n := Z.of_nat (nat_of_ascii c) in
  if (48 <=? n) && (n <=? 57) then Some (n - 48) else None.

(** Read exactly [n] decimal digits. *)
Fixpoint digits (n : nat) (acc : Z) (cs : list ascii) : option (Z * list ascii) :=
  match n with
  | O => Some (acc, cs)
  | S n' =>
      match cs with
      | c :: cs' =>
          match digit c with
          | Some d => digits n' (10 * acc + d) cs'
          | None => None
          end
      | [] => None
      end
  end.

Definition expect (c : ascii) (cs : list ascii) : option (list ascii) :=
  match cs with
  | c' :: cs' => if Ascii.eqb c c' then Some cs' else None
  | [] => None
  end.

Definition bind {A B : Type} (o : option A) (f : A -> option B) : option B :=
  match o with
  | Some a => f a
  | None => None
  end.

Notation "' p <- o ; k" := (bind o (fun p => k))
  (at level 60, p pattern, o at level 50, right associativity).
Notation "x <- o ; k" := (bind o (fun x => k))
  (at level 60, o at level 50, right associativity).

Definition validDate (y m d : Z) : bool :=
  (1 <=? m) && (m <=? 12) && (1 <=? d) && (d <=? ES.DaysInMonth y (m - 1)).

Definition validTime (h mi s : Z) : bool :=
  (h <=? 23) && (mi <=? 59) && (s <=? 59).

Definition parseTime (cs : list ascii) : option TimeOfDay :=
  '(h, cs) <- digits 2 0 cs ;
  cs <- expect ":" cs ;
  '(mi, cs) <- digits 2 0 cs ;
  cs <- expect ":" cs ;
  '(s, cs) <- digits 2 0 cs ;
  cs <- expect "." cs ;
  '(ms, cs) <- digits 3 0 cs ;
  match cs with
  | ["Z"%char] =>
      if validTime h mi s
      then Some {| hours := h; minutes := mi; seconds := s; milliseconds := ms |}
      else None
  | _ => None
  end.

Definition parse (s : string) : option DateString :=
  '(y, cs) <- digits 4 0 (list_ascii_of_string s) ;
  cs <- expect "-" cs ;
  '(m, cs) <- digits 2 0 cs ;
  cs <- expect "-" cs ;
  '(d, cs) <- digits 2 0 cs ;
  if validDate y m d then
    match cs with
    | [] => Some {| year := y; month := m; day := d; time := None |}
    | "T"%char :: cs =>
        t <- parseTime cs ;
        Some {| year := y; month := m; day := d; time := Some t |}
    | _ => None
    end
  else None.

Definition timeOfDay (t : option TimeOfDay) : Z :=
  match t with
  | Some t => ES.MakeTime (hours t) (minutes t) (seconds t) (milliseconds t)
  | None => 0
  end.

(** The time value of the fields read as UTC. *)
Definition utcTime (d : DateString) : Z :=
  ES.MakeDate (ES.MakeDay (year d) (month d - 1) (day d)) (timeOfDay (time d)).

End Iso.

(** A [Date] object is its time value; [NaN] is the Invalid Date. *)
Definition Date : Type := number.

Definition getTime (d : Date) : number := d.

(** [new Date(s)] for a string [s] of the two forms: a date-only form is UTC
    midnight, an instant is itself.  [NaN] is what a string without a digit
    gives on every engine. *)
Definition Date_new (s : string) : Date :=
  match Iso.parse s with
  | Some d => Num (Iso.utcTime d)
  | None => NaN
  end.

(** ** date-fns *)

Module DateFns.

(** [compareDesc(dateLeft, dateRight)]: -1 when the left date is later, 1
    when it is earlier, 0 when equal, [NaN] when either date is invalid. *)
Definition compareDesc (dateLeft dateRight : Date) : number :=
  let diff := sub (getTime dateLeft) (getTime dateRight) in
  if gt diff (Num 0) then Num (-1)
  else if lt diff (Num 0) then Num 1
  else diff.

Inductive Token : Type :=
| LLLL            (* stand-alone month, full name *)
| d_              (* day of month, no padding *)
| yyyy            (* year, four digits *)
| Lit (s : string).

Definition monthName (m : Z) : string :=
  match m with
  | 0 => "January" | 1 => "February" | 2 => "March" | 3 => "April"
  | 4 => "May" | 5 => "June" | 6 => "July" | 7 => "August"
  | 8 => "September" | 9 => "October" | 10 => "November" | _ => "December"
  end.

Definition decimal (n : Z) : string :=
  NilZero.string_of_uint (N.to_uint (Z.to_N n)).

Definition addLeadingZeros (n : Z) (targetLength : nat) : string :=
  let s := decimal n in
  (String.concat "" (repeat "0" (targetLength - String.length s)) ++ s)%string.

Section HostTimeZone.

Variable LocalTZA : Z -> bool -> Z.

(** [parseISO(s)] for a string [s] of the two forms: a date-only string is
    midnight in local time, an instant with the [Z] designator is that
    instant.  (date-fns reads the seconds with their fraction as one float,
    which can land a millisecond early inside the same second; the model
    reads them exactly.)  [NaN] is what date-fns returns for a string
    without a digit. *)
Definition parseISO (s : string) : Date :=
  match Iso.parse s with
  | None => NaN
  | Some d =>
      match Iso.time d with
      | Some _ => Num (Iso.utcTime d)
      | None =>
          let tmp := Iso.utcTime d in
          let result :=
            ES.setFullYear LocalTZA 0 (ES.YearFromTime tmp)
              (ES.MonthFromTime tmp) (ES.DateFromTime tmp) in
          Num (ES.setHours LocalTZA result 0 0 0 0)
      end
  end.

Definition formatToken (t : Z) (tok : Token) : string :=
  match tok with
  | LLLL => monthName (ES.MonthFromTime t)
  | d_ => decimal (ES.DateFromTime t)
  | yyyy =>
      let signedYear := ES.YearFromTime t in
      let y := if signedYear >? 0 then signedYear else 1 - signedYear in
      addLeadingZeros y 4
  | Lit s => s
  end.

(** [format(date, pattern)] prints the local calendar date and throws on
    an invalid date. *)
Definition format (date : Date) (pattern : list Token) : result string :=
  match date with
  | NaN => Throw (RangeError "Invalid time value")
  | Num t =>
      Ok (String.concat "" (map (formatToken (ES.LocalTime LocalTZA t)) pattern))
  end.

End HostTimeZone.

End DateFns.

(** ** [Array.prototype.sort]

    ECMA-262 fixes the result for a consistent comparator (sorted, stable)
    and leaves the sequence of comparator calls to the engine.  The engine is
    modelled by a stable insertion sort: the comparator is called on
    (earlier element, later element), and an element moves behind a later
    one only on a strictly positive answer.

    With a comparator that is not consistent (a [NaN] answer among numeric
    ones) the arrangement depends on the engine's algorithm, and the model
    is one engine among others: of that case only what holds of every
    arrangement is stated, that the result is a permutation. *)

Module JsArray.

Section Sort.

Context {A : Type}.
Variable comparefn : A -> A -> number.

(** [SortCompare]: a [NaN] answer counts as +0. *)
Definition SortCompare (x y : A) : Z :=
  match comparefn x y with
  | NaN => 0
  | Num v => v
  end.

Fixpoint insert (x : A) (sorted : list A) : list A :=
  match sorted with
  | [] => [x]
  | y :: rest =>
      if SortCompare x y >? 0 then y :: insert x rest else x :: y :: rest
  end.

Definition sort (l : list A) : list A := fold_right insert [] l.

End Sort.

(** [array.map((element, index) => ...)] with a callback that only computes. *)
Fixpoint mapi_from {A B : Type} (i : nat) (f : A -> nat -> B) (l : list A) : list B :=
  match l with
  | [] => []
  | x :: rest => f x i :: mapi_from (S i) f rest
  end.

End JsArray.

(** ** The data model: posts and the generated feed *)

Record Post : Type := {
  title : string;
  date : string;
  description : string;
  url : string;
  tags : option (list string)
}.

(** Module state of [contentlayer/generated]: the array [allPosts], shared by
    every importer and sorted in place by the home page. *)
Record Store : Type := {
  allPosts : list Post
}.

(** A post of the data model: its [date] field holds what the type promises,
    an ISO-8601 date. *)
Definition validPost (p : Post) : Prop := Iso.parse (date p) <> None.

(** ** Computations of a render: module state and exceptions *)

Definition M (A : Type) : Type := Store -> Store * result A.

Definition ret {A : Type} (a : A) : M A := fun s => (s, Ok a).

Definition bind {A B : Type} (m : M A) (k : A -> M B) : M B :=
  fun s =>
    match m s with
    | (s', Ok a) => k a s'
    | (s', Throw e) => (s', Throw e)
    end.

Definition lift {A : Type} (r : result A) : M A := fun s => (s, r).

Notation "x <- m ;; k" := (bind m (fun x => k))
  (at level 61, m at next level, right associativity).

(** [array.map(f)] with an effectful callback, left to right. *)
Fixpoint mapM_from {A B : Type} (i : nat) (f : A -> nat -> M B) (l : list A) : M (list B) :=
  match l with
  | [] => ret []
  | x :: rest =>
      y <- f x i ;;
      ys <- mapM_from (S i) f rest ;;
      ret (y :: ys)
  end.

Definition mapM {A B : Type} (f : A -> nat -> M B) (l : list A) : M (list B) :=
  mapM_from 0 f l.

(** [allPosts.sort(comparefn)]: sorts the shared array in place and returns
    that same array. *)
Definition allPosts_sort (comparefn : Post -> Post -> number) : M (list Post) :=
  fun s =>
    let sorted := JsArray.sort comparefn (allPosts s) in
    ({| allPosts := sorted |}, Ok sorted).

(** ** React elements

    A component defined in the sources is expanded by calling it; an
    imported one (next/link's [Link], next/image's [Image], the [Container]
    and [Button] wrappers, the [Github] icon) stays an element named after
    the component. *)

Inductive PropValue : Type :=
| PStr (s : string)
| PBool (b : bool)
| PObject (fields : list (string * string))
| PImport (path : string).

Inductive Node : Type :=
| El (type : string) (props : list (string * PropValue)) (children : list Node)
| Txt (s : string)
| JsFalse
| JsUndefined
| Keyed (items : list (nat * Node)).

Definition className (c : string) : string * PropValue := ("className", PStr c).
Definition href (h : string) : string * PropValue := ("href", PStr h).

(** What React commits: [false] and [undefined] children render nothing and
    array children are spliced in place. *)
Inductive Html : Type :=
| HEl (type : string) (props : list (string * PropValue)) (children : list Html)
| HTxt (s : string).

Fixpoint render (n : Node) : list Html :=
  match n with
  | El type props children => [HEl type props (flat_map render children)]
  | Txt s => [HTxt s]
  | JsFalse => []
  | JsUndefined => []
  | Keyed items => flat_map (fun item => render (snd item)) items
  end.

(** Queries on committed markup, in document order. *)

Fixpoint descendants (h : Html) : list Html :=
  h :: match h with
       | HEl _ _ children => flat_map descendants children
       | HTxt _ => []
       end.

Definition hasType (ty : string) (h : Html) : bool :=
  match h with
  | HEl type _ _ => String.eqb type ty
  | HTxt _ => false
  end.

Fixpoint lookup (name : string) (props : list (string * PropValue)) : option PropValue :=
  match props with
  | [] => None
  | (k, v) :: rest => if String.eqb k name then Some v else lookup name rest
  end.

Definition prop (name : string) (h : Html) : option PropValue :=
  match h with
  | HEl _ props _ => lookup name props
  | HTxt _ => None
  end.

Definition hasClass (c : string) (h : Html) : bool :=
  match prop "className" h with
  | Some (PStr c') => String.eqb c' c
  | _ => false
  end.

Definition select (test : Html -> bool) (roots : list Html) : list Html :=
  filter test (flat_map descendants roots).

Definition byType (ty : string) : list Html -> list Html := select (hasType ty).

Definition byClass (c : string) : list Html -> list Html := select (hasClass c).

Fixpoint textContent (h : Html) : string :=
  match h with
  | HTxt s => s
  | HEl _ _ children => String.concat "" (map textContent children)
  end.

(** ** Components *)

(** [components/tag.tsx] *)
Definition Tag (tag : string) : M Node :=
  ret (El "div"
         [className "rounded-lg bg-green-500 p-1 text-sm font-medium text-white "]
         [El "p" [] [Txt tag]]).

(** [components/navigation.tsx] *)
Definition Navigation : M Node :=
  ret (El "nav" []
         [El "Link" [href "/"; className "nav-link"] [Txt "Home"];
          El "Link" [href "/posts"; className "nav-link"] [Txt "Post"];
          El "Link" [href "/tags"; className "nav-link"] [Txt "Tags"];
          El "Link" [href "/about"; className "nav-link"] [Txt "About"]]).

(** [components/profile.tsx]; [avatar] is the statically imported image. *)
Definition avatar : PropValue := PImport "public/images/avt.jpg".

Definition Profile : M Node :=
  ret (El "div" [className "flex flex-col items-center justify-center gap-2"]
         [El "div" []
            [El "Image"
               [("src", avatar);
                ("alt", PStr "profile");
                className "h-20 w-20 rounded-full";
                ("style", PObject [("objectFit", "cover")])]
               []];
          El "h3" [] [Txt "@tuannha"]]).

(** [layout/footer.tsx] *)
Definition Footer : M Node :=
  ret (El "footer" [className "mb-10 mt-20 text-center text-gray-500"]
         [El "Container" []
            [El "small" [className "mb-2 block text-xs"]
               [Txt "© tuannha 2024. All right reserved."]]]).

Section Site.

Variable LocalTZA : Z -> bool -> Z.

(** [components/post-card.tsx] *)
Definition PostCard (post : Post) : M Node :=
  let tags := tags post in
  formatted <-
    lift (DateFns.format LocalTZA (DateFns.parseISO LocalTZA (date post))
            [DateFns.LLLL; DateFns.Lit " "; DateFns.d_; DateFns.Lit ", ";
             DateFns.yyyy]) ;;
  tagRow <-
    match tags with
    | None => ret JsUndefined
    | Some tags =>
        if (0 <? List.length tags)%nat then
          chips <- mapM (fun tag idx => chip <- Tag tag ;; ret (idx, chip)) tags ;;
          ret (El "div" [className "mt-5 flex flex-row gap-2"] [Keyed chips])
        else ret JsFalse
    end ;;
  ret (El "article" [className "flex flex-col items-start justify-between"]
         [El "div" [className "flex items-center gap-x-4 text-xs"]
            [El "time" [("dateTime", PStr (date post))] [Txt formatted]];
          El "div" [className "group relative"]
            [El "h3" [className "mt-3 text-lg font-semibold leading-6"]
               [El "Link" [className "link"; href (url post)]
                  [El "span" [className "absolute inset-0"] [];
                   Txt (title post)]];
             tagRow;
             El "p" [className "mt-5 line-clamp-3 text-sm leading-6"]
               [Txt (description post)]]]).

(** The home page. *)
Definition Home : M Node :=
  posts <-
    allPosts_sort (fun a b =>
      DateFns.compareDesc (Date_new (date a)) (Date_new (date b))) ;;
  cards <- mapM (fun post idx => card <- PostCard post ;; ret (idx, card)) posts ;;
  ret (El "div" []
         [El "div" [className "space-y-7"]
            [El "p" []
               [Txt "Hello everyone, I'm Tuan. I'm a software engineer and I love to write about everything that I know. I hope my blog will bring useful knowledge to you. Thanks for visiting."];
             El "p" []
               [Txt "This's main current stack of my blog. I hope you will find it"];
             El "ul" [className "my-6 list-disc space-y-2 pl-4"]
               [El "li" [] [El "Link" [className "link"; href "#"] [Txt "Backend Development"]];
                El "li" [] [El "Link" [className "link"; href "#"] [Txt "Devops & Cloud"]];
                El "li" [] [El "Link" [className "link"; href "#"] [Txt "Frontend Development"]];
                El "li" [] [El "Link" [className "link"; href "#"] [Txt "Mobile Development"]]];
             El "Button" [("asChild", PBool true)]
               [El "a" [href "https://github.com/tuantoquq"]
                  [El "Github" [className "mr-1"] [];
                   Txt " Visit my profile!"]]];
          El "div"
            [className "mt-10 space-y-12 border-t border-gray-200 pt-10 dark:border-gray-700"]
            [Keyed cards]]).

End Site.

(** [docs/.vitepress/config.mts]: the navigation bar of the documentation
    site. *)
Module VitePress.

Record NavItem : Type := {
  text : string;
  link : string
}.

Definition nav : list NavItem :=
  [ {| text := "Home"; link := "/" |};
    {| text := "DevOps"; link := "/devops" |};
    {| text := "Backend"; link := "/backend" |};
    {| text := "Me"; link := "/me" |};
    {| text := "Sponsor"; link := "/sponsor" |} ].

(** A second site configuration in the sources carries a shorter bar. *)
Definition navShort : list NavItem :=
  [ {| text := "Home"; link := "/" |};
    {| text := "DevOps"; link := "/devops" |};
    {| text := "Backend"; link := "/backend" |} ].

End VitePress.

(** The links of a navigation bar: label and target of every [Link]. *)
Definition linkOf (h : Html) : string * string :=
  (textContent h,
   match prop "href" h with
   | Some (PStr target) => target
   | _ => EmptyString
   end).

Definition links (roots : list Html) : list (string * string) :=
  map linkOf (byType "Link" roots).

(** ** Vocabulary of the properties *)

(** The time value a post is sorted by. *)
Definition timeValue (p : Post) : Z :=
  match Date_new (date p) with
  | Num t => t
  | NaN => 0
  end.

(** [date(A) >= date(B)] on the dates the comparator sees. *)
Definition dateGe (a b : Post) : Prop :=
  ge (Date_new (date a)) (Date_new (date b)) = true.

(** [l] lists its posts newest first: whenever [a] comes before [b], the
    date of [a] is not earlier than the date of [b]. *)
Definition newestFirst (l : list Post) : Prop :=
  forall i j a b,
    (i < j)%nat -> nth_error l i = Some a -> nth_error l j = Some b -> dateGe a b.

Definition theComparator (a b : Post) : number :=
  DateFns.compareDesc (Date_new (date a)) (Date_new (date b)).

(** The markup a post's card commits to (empty when [PostCard] throws). *)
Definition PostCard_markup (LocalTZA : Z -> bool -> Z) (p : Post) : list Html :=
  match snd (PostCard LocalTZA p {| allPosts := [] |}) with
  | Ok card => render card
  | Throw _ => []
  end.

Definition tagRowClass : string := "mt-5 flex flex-row gap-2".

Definition chipClass : string :=
  "rounded-lg bg-green-500 p-1 text-sm font-medium text-white ".

(** The tag chips of some markup, by their labels. *)
Definition chipLabels (roots : list Html) : list string :=
  map textContent (byClass chipClass roots).

(** The [dateTime] attributes of the [time] elements of some markup. *)
Definition dateTimes (roots : list Html) : list (option PropValue) :=
  map (prop "dateTime") (byType "time" roots).

(** A component that always returns the same element, whatever the module
    state, and leaves that state alone. *)
Definition pureComponent (c : M Node) : Prop :=
  exists out, forall s, c s = (s, Ok out).

(** The top-level routes of the site, by name. *)
Inductive Route : Type :=
| RHome | RPosts | RTags | RAbout | RDevOps | RBackend | RMe | RSponsor.

Definition path (r : Route) : string :=
  match r with
  | RHome => "/"
  | RPosts => "/posts"
  | RTags => "/tags"
  | RAbout => "/about"
  | RDevOps => "/devops"
  | RBackend => "/backend"
  | RMe => "/me"
  | RSponsor => "/sponsor"
  end.

(** Label and target of every entry of the navigation bars: the blog's
    [Navigation] and the documentation site's [nav]. *)
Definition navigationSurface (appNav : list Html) : list (string * string) :=
  links appNav ++
  map (fun item => (VitePress.text item, VitePress.link item))
      (VitePress.nav ++ VitePress.navShort).

(** A fixed site-relative path: it starts at the root and has no dynamic
    segment, query or fragment. *)
Definition staticTarget (target : string) : bool :=
  match list_ascii_of_string target with
  | "/"%char :: rest =>
      forallb (fun c => negb (existsb (Ascii.eqb c)
                                [":"%char; "["%char; "]"%char; "?"%char; "#"%char; "*"%char]))
              rest
  | _ => false
  end.

(** Descending order of the sort keys. *)
Definition keyGe {A : Type} (key : A -> Z) (x y : A) : Prop := key x >= key y.

(** The elements of [l] whose key is [k], in their order in [l]. *)
Definition withKey {A : Type} (key : A -> Z) (k : Z) (l : list A) : list A :=
  filter (fun y => key y =? k) l.

(** What a tag chip commits to. *)
Definition chipHtml (tag : string) : Html :=
  HEl "div" [className chipClass] [HEl "p" [] [HTxt tag]].

(** The element [PostCard] returns for [p] ([undefined] when it throws). *)
Definition PostCard_element (LocalTZA : Z -> bool -> Z) (p : Post) : Node :=
  match snd (PostCard LocalTZA p {| allPosts := [] |}) with
  | Ok card => card
  | Throw _ => JsUndefined
  end.

(** The record [p] with its [tags] field replaced. *)
Definition withTags (p : Post) (t : option (list string)) : Post :=
  {| title := title p; date := date p; description := description p;
     url := url p; tags := t |}.

Definition children (h : Html) : list Html :=
  match h with
  | HEl _ _ c => c
  | HTxt _ => []
  end.

(** ** Sample data

    A host seven hours east of Greenwich, and a small feed. *)

Definition hostTZA : Z -> bool -> Z := fun _ _ => 25200000.

Definition postNestjs : Post :=
  {| title := "NestJS common issues";
     date := "2024-01-01";
     description := "Problems that show up in production";
     url := "/posts/nestjs-common-issues";
     tags := Some ["backend"; "devops"] |}.

Definition postDocker : Post :=
  {| title := "Optimize your Dockerfile";
     date := "2024-06-15T08:30:00.000Z";
     description := "Smaller images, faster builds";
     url := "/posts/optimize-dockerfile";
     tags := Some [] |}.

Definition postHello : Post :=
  {| title := "Hello";
     date := "2023-12-31";
     description := "First post";
     url := "/posts/hello";
     tags := None |}.

(** A record whose date is not a date. *)
Definition postUndated : Post :=
  {| title := "Draft";
     date := "soon";
     description := "No date yet";
     url := "/posts/draft";
     tags := None |}.

Definition sampleFeed : Store :=
  {| allPosts := [postNestjs; postDocker; postHello] |}.

(** ** The page shell *)

(** [layout/header.tsx] *)
Definition Header : M Node :=
  profile <- Profile ;;
  navigation <- Navigation ;;
  ret (El "header" [className "py-4"]
         [El "Container" []
            [El "div" [className "flex items-center justify-between py-6"]
               [El "div" [className "flex w-[80%] items-center justify-between"]
                  [profile; navigation];
                El "div" [className "w-[5%]"]
                  [El "ThemeSwitch" [] []]]]]).

(** [app/layout.tsx] *)
Definition RootLayout (children : Node) : M Node :=
  header <- Header ;;
  footer <- Footer ;;
  ret (El "html" [("lang", PStr "en")]
         [El "body" []
            [El "ThemeProvider"
               [("attribute", PStr "class"); ("defaultTheme", PStr "dark")]
               [header;
                El "main" [] [El "Container" [] [children]];
                footer]]]).

(** What the framework serves for a route: the page, passed to the root
    layout as its [children]. *)
Definition route (page : M Node) : M Node :=
  content <- page ;;
  RootLayout content.

(** ** More vocabulary *)

(** A host whose local time is UTC plus a fixed number of milliseconds. *)
Definition fixedOffset (c : Z) : Z -> bool -> Z := fun _ _ => c.

(** The text of the pattern [LLLL d, yyyy] for a calendar date with month
    [m] in 1 .. 12. *)
Definition longDate (y m d : Z) : string :=
  String.concat ""
    [DateFns.monthName (m - 1); " "; DateFns.decimal d; ", ";
     DateFns.addLeadingZeros (if y >? 0 then y else 1 - y) 4].

(** The same text for day number [n] (days since the epoch). *)
Definition longDateOfDay (n : Z) : string :=
  let civil := ES.CivilFromDay n in
  let y := fst (fst civil) in
  String.concat ""
    [DateFns.monthName (snd (fst civil)); " "; DateFns.decimal (snd civil); ", ";
     DateFns.addLeadingZeros (if y >? 0 then y else 1 - y) 4].

(** The texts of the [time] elements of some markup. *)
Definition timeTexts (roots : list Html) : list string :=
  map textContent (byType "time" roots).

(** Lexicographic order on (year, month, day, time of day). *)
Definition calendarLt (a b : Iso.DateString) : Prop :=
  Iso.year a < Iso.year b \/
  (Iso.year a = Iso.year b /\
   (Iso.month a < Iso.month b \/
    (Iso.month a = Iso.month b /\
     (Iso.day a < Iso.day b \/
      (Iso.day a = Iso.day b /\
       Iso.timeOfDay (Iso.time a) < Iso.timeOfDay (Iso.time b)))))).

(** The keys of every keyed array of an element tree, outermost first. *)
Fixpoint keyedLists (n : Node) : list (list nat) :=
  match n with
  | El _ _ children => flat_map keyedLists children
  | Keyed items =>
      map fst items :: flat_map (fun item => keyedLists (snd item)) items
  | _ => []
  end.

(** A post dated by an instant, at UTC midnight. *)
Definition postMidnight : Post :=
  {| title := "API conventions";
     date := "2024-01-01T00:00:00.000Z";
     description := "Naming, versioning, errors";
     url := "/posts/api-convention";
     tags := Some ["backend"] |}.

(** A feed with an undated draft in it, and a feed of drafts only. *)
Definition draftFeed : Store :=
  {| allPosts := [postHello; postUndated; postNestjs] |}.

Definition postUndated2 : Post :=
  {| title := "Another draft";
     date := "";
     description := "Empty date";
     url := "/posts/draft-2";
     tags := Some ["backend"] |}.

Definition draftsOnly : Store :=
  {| allPosts := [postUndated; postUndated2] |}.

(** A feed already listed newest first, with two posts of one date. *)
Definition postTwin : Post :=
  {| title := "Same day";
     date := "2024-01-01T00:00:00.000Z";
     description := "Published with the NestJS post";
     url := "/posts/same-day";
     tags := None |}.

Definition sortedFeed : Store :=
  {| allPosts := [postDocker; postNestjs; postTwin; postHello] |}.

(** A string without a decimal digit.  Neither [new Date] nor [parseISO]
    reads a date out of one: both answer the Invalid Date. *)
Definition noDigit (s : string) : bool :=
  forallb (fun c => match Iso.digit c with Some _ => false | None => true end)
          (list_ascii_of_string s).

(** [date(A) >= date(B)] on the dates as they are written: both are dates
    of the data model, and the calendar fields of [a] (year, month, day,
    time of day) are not before those of [b]. *)
Definition writtenGe (a b : Post) : Prop :=
  exists da db,
    Iso.parse (date a) = Some da /\ Iso.parse (date b) = Some db /\
    ~ calendarLt da db.

(** [l] lists its posts newest first by their written dates. *)
Definition calendarNewestFirst (l : list Post) : Prop :=
  forall i j a b,
    (i < j)%nat -> nth_error l i = Some a -> nth_error l j = Some b -> writtenGe a b.

(** A post dated by an instant in the small hours of the first of January. *)
Definition postSmallHours : Post :=
  {| title := "Release notes";
     date := "2024-01-01T02:00:00.000Z";
     description := "What changed overnight";
     url := "/posts/release-notes";
     tags := None |}.

(** ** Pages

    What a route leads to.  The blog serves page components; the
    documentation site builds one page out of every markdown document. *)

(** The page at [/about], the address its metadata gives. *)
Definition About : M Node :=
  ret (El "div" [className "flex items-center justify-center"]
         [El "p" [] [Txt "Coming Soon..."]]).

(** A static page: a page component rendered without route parameters, or
    a markdown document, given by its layout and the words of its title. *)
Inductive Page : Type :=
| Component (page : M Node)
| Markdown (layout : string) (title : string).

(** The page components the sources hold, by address. *)
Definition blogPagesInSources (LocalTZA : Z -> bool -> Z) : list (string * Page) :=
  [ ("/", Component (Home LocalTZA));
    ("/about", Component About) ].

(** Modelled from the spec: the pages at [/posts] and [/tags].  Their page
    files are not among the sources, which hold the links to them only; the
    specification has every top-level route map to a static page, so each
    is a page component like [Home] and [About], [Posts] and [Tags], of
    which nothing more is assumed. *)
Definition blogPages (LocalTZA : Z -> bool -> Z) (Posts Tags : M Node)
  : list (string * Page) :=
  blogPagesInSources LocalTZA ++
  [ ("/posts", Component Posts);
    ("/tags", Component Tags) ].

(** The documents of the documentation site its navigation bar leads to, by
    address: the home page, the overviews of the two sections, [me.md] and
    [sponsor.md]. *)
Definition docPages : list (string * Page) :=
  [ ("/", Markdown "home" "TDev Blog");
    ("/devops", Markdown "doc" "DevOps Knowledge Base");
    ("/backend", Markdown "doc" "Backend Knowledge Base");
    ("/me", Markdown "doc" "Hi, I'm Tuan");
    ("/sponsor", Markdown "doc" "Support the Journey") ].

Definition pageAt (pages : list (string * Page)) (target : string) : option Page :=
  match find (fun entry => String.eqb (fst entry) target) pages with
  | Some entry => Some (snd entry)
  | None => None
  end.

(** * Facts about [Array.prototype.sort] *)

Section SortFacts.

Context {A : Type}.
Variable comparefn : A -> A -> number.

Lemma insert_Permutation (x : A) (l : list A) :
  Permutation (JsArray.insert comparefn x l) (x :: l).
Proof.
  induction l as [|y l IH]; simpl.
  - apply Permutation_refl.
  - destruct (JsArray.SortCompare comparefn x y >? 0).
    + eapply perm_trans; [apply perm_skip, IH | apply perm_swap].
    + apply Permutation_refl.
Qed.

(** Whatever the comparator answers, sorting only rearranges. *)
Lemma sort_Permutation (l : list A) :
  Permutation (JsArray.sort comparefn l) l.
Proof.
  induction l as [|x l IH]; simpl.
  - constructor.
  - eapply perm_trans; [apply insert_Permutation | apply perm_skip, IH].
Qed.

Lemma sort_length (l : list A) :
  List.length (JsArray.sort comparefn l) = List.length l.
Proof. apply Permutation_length, sort_Permutation. Qed.

Lemma sort_In (l : list A) (x : A) :
  In x (JsArray.sort comparefn l) <-> In x l.
Proof.
  split; apply Permutation_in;
    [apply sort_Permutation | apply Permutation_sym, sort_Permutation].
Qed.

Lemma sort_Forall (P : A -> Prop) (l : list A) :
  Forall P l -> Forall P (JsArray.sort comparefn l).
Proof.
  intros H. eapply Permutation_Forall; [|exact H].
  apply Permutation_sym, sort_Permutation.
Qed.

(** On a domain where the comparator orders by a key, descending: a
    strictly positive answer exactly when the first key is smaller. *)
Variable key : A -> Z.
Variable dom : A -> Prop.
Hypothesis comparefn_key :
  forall x y, dom x -> dom y ->
    (JsArray.SortCompare comparefn x y >? 0) = (key x <? key y).

Lemma insert_sorted (x : A) (l : list A) :
  dom x -> Forall dom l ->
  StronglySorted (keyGe key) l ->
  StronglySorted (keyGe key) (JsArray.insert comparefn x l).
Proof.
  intros Hx Hl Hs. induction Hs as [|y l Hs IH Hy]; simpl.
  - repeat constructor.
  - inversion Hl as [|? ? Hdy Hdl]; subst.
    rewrite (comparefn_key x y Hx Hdy).
    destruct (Z.ltb_spec (key x) (key y)) as [Hlt|Hge].
    + constructor; [apply IH; assumption|].
      eapply Permutation_Forall;
        [apply Permutation_sym, insert_Permutation|].
      constructor; [unfold keyGe; lia | assumption].
    + constructor; [constructor; assumption|].
      constructor; [unfold keyGe; lia|].
      eapply Forall_impl; [|exact Hy].
      unfold keyGe. intros z Hz. lia.
Qed.

Lemma sort_sorted (l : list A) :
  Forall dom l -> StronglySorted (keyGe key) (JsArray.sort comparefn l).
Proof.
  induction 1 as [|x l Hx Hl IH]; simpl.
  - constructor.
  - apply insert_sorted; [assumption | apply sort_Forall; assumption | exact IH].
Qed.

(** An array already in descending key order is left as it is. *)
Lemma sort_of_sorted (l : list A) :
  Forall dom l -> StronglySorted (keyGe key) l -> JsArray.sort comparefn l = l.
Proof.
  intros Hl Hs. induction Hs as [|x l Hs IH Hx]; simpl; [reflexivity|].
  inversion Hl as [|? ? Hdx Hdl]; subst.
  rewrite (IH Hdl).
  destruct l as [|y l']; simpl; [reflexivity|].
  inversion Hdl as [|? ? Hdy _]; subst.
  inversion Hx as [|? ? Hxy _]; subst.
  rewrite (comparefn_key x y Hdx Hdy).
  destruct (Z.ltb_spec (key x) (key y)); [unfold keyGe in Hxy; lia | reflexivity].
Qed.

Lemma sort_idempotent (l : list A) :
  Forall dom l ->
  JsArray.sort comparefn (JsArray.sort comparefn l) = JsArray.sort comparefn l.
Proof.
  intros Hl. apply sort_of_sorted; [apply sort_Forall | apply sort_sorted]; assumption.
Qed.

Lemma insert_withKey (k : Z) (x : A) (l : list A) :
  dom x -> Forall dom l ->
  withKey key k (JsArray.insert comparefn x l) = withKey key k (x :: l).
Proof.
  intros Hx Hl. induction Hl as [|y l Hy Hl IH]; [reflexivity|].
  simpl. rewrite (comparefn_key x y Hx Hy).
  destruct (Z.ltb_spec (key x) (key y)) as [Hlt|Hge]; [|reflexivity].
  unfold withKey in *. simpl in *. rewrite IH.
  destruct (Z.eqb_spec (key x) k), (Z.eqb_spec (key y) k); try reflexivity; lia.
Qed.

(** Stability: posts of equal date keep their relative order. *)
Lemma sort_stable (k : Z) (l : list A) :
  Forall dom l ->
  withKey key k (JsArray.sort comparefn l) = withKey key k l.
Proof.
  induction 1 as [|x l Hx Hl IH]; [reflexivity|].
  simpl JsArray.sort.
  rewrite insert_withKey; [|assumption | apply sort_Forall; assumption].
  unfold withKey in *. simpl. rewrite IH. reflexivity.
Qed.

(** Sortedness and stability fix the result: every engine that meets the
    standard returns what [JsArray.sort] returns. *)
Lemma sorted_stable_unique (l1 l2 : list A) :
  StronglySorted (keyGe key) l1 ->
  StronglySorted (keyGe key) l2 ->
  (forall k, withKey key k l1 = withKey key k l2) ->
  l1 = l2.
Proof.
  intros H1. revert l2.
  induction H1 as [|x l1 H1 IH Hx]; intros l2 H2 Hk.
  - destruct l2 as [|y l2]; [reflexivity|].
    specialize (Hk (key y)). unfold withKey in Hk. simpl in Hk.
    rewrite Z.eqb_refl in Hk. discriminate.
  - destruct H2 as [|y l2 H2 Hy].
    + specialize (Hk (key x)). unfold withKey in Hk. simpl in Hk.
      rewrite Z.eqb_refl in Hk. discriminate.
    + assert (Hxy : key x = key y).
      { pose proof (Hk (key x)) as Kx. pose proof (Hk (key y)) as Ky.
        unfold withKey in Kx, Ky. simpl in Kx, Ky.
        rewrite Z.eqb_refl in Kx, Ky.
        destruct (Z.eqb_spec (key y) (key x)) as [E|N]; [congruence|].
        destruct (Z.eqb_spec (key x) (key y)) as [E'|N']; [congruence|].
        assert (Ix : In x (filter (fun y0 => key y0 =? key x) l2))
          by (rewrite <- Kx; left; reflexivity).
        assert (Iy : In y (filter (fun y0 => key y0 =? key y) l1))
          by (rewrite Ky; left; reflexivity).
        apply filter_In in Ix. apply filter_In in Iy.
        destruct Ix as [Ix _]. destruct Iy as [Iy _].
        rewrite Forall_forall in Hx, Hy.
        specialize (Hx _ Iy). specialize (Hy _ Ix). unfold keyGe in *. lia. }
      assert (Exy : x = y).
      { specialize (Hk (key x)). unfold withKey in Hk. simpl in Hk.
        rewrite <- Hxy in Hk. rewrite Z.eqb_refl in Hk. congruence. }
      subst y. f_equal. apply IH; [exact H2|].
      intros k. specialize (Hk k). unfold withKey in *. simpl in Hk.
      destruct (key x =? k); congruence.
Qed.

End SortFacts.

(** * Facts about dates and the comparator *)

Lemma validPost_Date_new (p : Post) :
  validPost p -> Date_new (date p) = Num (timeValue p).
Proof.
  unfold validPost, timeValue, Date_new.
  destruct (Iso.parse (date p)); [reflexivity | congruence].
Qed.

Lemma compareDesc_Num (x y : Z) :
  DateFns.compareDesc (Num x) (Num y) =
  Num (if x >? y then -1 else if x <? y then 1 else 0).
Proof.
  unfold DateFns.compareDesc, getTime. simpl.
  destruct (Z.gtb_spec (x - y) 0), (Z.gtb_spec x y); try lia; try reflexivity.
  destruct (Z.ltb_spec (x - y) 0), (Z.ltb_spec x y); try lia; try reflexivity.
  f_equal. lia.
Qed.

(** With an invalid date on either side the comparator answers [NaN]. *)
Lemma compareDesc_NaN_l (d : Date) : DateFns.compareDesc NaN d = NaN.
Proof. reflexivity. Qed.

Lemma compareDesc_NaN_r (d : Date) : DateFns.compareDesc d NaN = NaN.
Proof. destruct d; reflexivity. Qed.

Lemma theComparator_key (x y : Post) :
  validPost x -> validPost y ->
  (JsArray.SortCompare theComparator x y >? 0) = (timeValue x <? timeValue y).
Proof.
  intros Hx Hy. unfold JsArray.SortCompare, theComparator.
  rewrite (validPost_Date_new x Hx), (validPost_Date_new y Hy), compareDesc_Num.
  destruct (Z.gtb_spec (timeValue x) (timeValue y)),
           (Z.ltb_spec (timeValue x) (timeValue y)); try lia; reflexivity.
Qed.

Lemma dateGe_timeValue (a b : Post) :
  validPost a -> validPost b -> (dateGe a b <-> timeValue a >= timeValue b).
Proof.
  intros Ha Hb. unfold dateGe.
  rewrite (validPost_Date_new a Ha), (validPost_Date_new b Hb). simpl.
  unfold Z.geb. unfold Z.ge.
  destruct (timeValue a ?= timeValue b); split; intros H;
    try reflexivity; try discriminate; try congruence.
Qed.

Lemma StronglySorted_nth_error {A : Type} (R : A -> A -> Prop) (l : list A) :
  StronglySorted R l ->
  forall i j a b,
    (i < j)%nat -> nth_error l i = Some a -> nth_error l j = Some b -> R a b.
Proof.
  induction 1 as [|x l Hs IH Hx]; intros i j a b Hij Hi Hj.
  - destruct i; discriminate.
  - destruct j as [|j]; [lia|]. simpl in Hj.
    destruct i as [|i]; simpl in Hi.
    + injection Hi as <-. rewrite Forall_forall in Hx.
      apply Hx. eapply nth_error_In; eassumption.
    + apply (IH i j); [lia | assumption | assumption].
Qed.

Lemma sorted_newestFirst (l : list Post) :
  Forall validPost l -> StronglySorted (keyGe timeValue) l -> newestFirst l.
Proof.
  intros Hv Hs i j a b Hij Hi Hj.
  rewrite Forall_forall in Hv.
  apply dateGe_timeValue; try (apply Hv; eapply nth_error_In; eassumption).
  exact (StronglySorted_nth_error _ l Hs i j a b Hij Hi Hj).
Qed.

Lemma validPost_format (LocalTZA : Z -> bool -> Z) (p : Post) (pattern : list DateFns.Token) :
  validPost p ->
  exists formatted,
    DateFns.format LocalTZA (DateFns.parseISO LocalTZA (date p)) pattern = Ok formatted.
Proof.
  unfold validPost, DateFns.parseISO. intros H.
  destruct (Iso.parse (date p)) as [d|]; [|congruence].
  destruct (Iso.time d); unfold DateFns.format; eexists; reflexivity.
Qed.

(** An invalid date makes [format] throw, whatever the host's time zone. *)
Lemma invalid_format (LocalTZA : Z -> bool -> Z) (p : Post) (pattern : list DateFns.Token) :
  ~ validPost p ->
  DateFns.format LocalTZA (DateFns.parseISO LocalTZA (date p)) pattern =
  Throw (RangeError "Invalid time value").
Proof.
  unfold validPost, DateFns.parseISO. intros H.
  destruct (Iso.parse (date p)); [exfalso; apply H; discriminate | reflexivity].
Qed.

#[local] Arguments DateFns.format : simpl never.
#[local] Arguments DateFns.parseISO : simpl never.
#[local] Arguments Date_new : simpl never.

(** * Facts about queries on markup *)

Lemma select_nil (test : Html -> bool) : select test [] = [].
Proof. reflexivity. Qed.

Lemma select_app (test : Html -> bool) (l1 l2 : list Html) :
  select test (l1 ++ l2) = select test l1 ++ select test l2.
Proof. unfold select. rewrite flat_map_app, filter_app. reflexivity. Qed.

Lemma select_cons (test : Html -> bool) (h : Html) (rest : list Html) :
  select test (h :: rest) =
  (if test h then [h] else []) ++ select test (children h) ++ select test rest.
Proof.
  unfold select. simpl flat_map. rewrite filter_app.
  destruct h as [ty pr ch|txt]; simpl; destruct (test _); reflexivity.
Qed.

Lemma select_flat_map {A : Type} (test : Html -> bool) (f : A -> list Html) (l : list A) :
  select test (flat_map f l) = flat_map (fun x => select test (f x)) l.
Proof.
  induction l as [|x l IH]; [reflexivity|].
  simpl. rewrite select_app, IH. reflexivity.
Qed.

Lemma select_chips (test : Html -> bool) (tags : list string) :
  select test (map chipHtml tags) =
  flat_map (fun tag =>
              filter test [chipHtml tag; HEl "p" [] [HTxt tag]; HTxt tag]) tags.
Proof.
  induction tags as [|t ts IH]; [reflexivity|].
  change (map chipHtml (t :: ts)) with ([chipHtml t] ++ map chipHtml ts).
  rewrite select_app, IH. reflexivity.
Qed.

Lemma flat_map_nil {A B : Type} (l : list A) :
  flat_map (fun _ : A => @nil B) l = [].
Proof. induction l; simpl; auto. Qed.

Lemma flat_map_singleton {A B : Type} (f : A -> B) (l : list A) :
  flat_map (fun x => [f x]) l = map f l.
Proof. induction l as [|x l IH]; simpl; [|rewrite IH]; reflexivity. Qed.

(** * Facts about the components *)

Lemma bind_ok {A B : Type} (m : M A) (k : A -> M B) (s s' : Store) (a : A) :
  m s = (s', Ok a) -> bind m k s = k a s'.
Proof. unfold bind. intros ->. reflexivity. Qed.

Lemma bind_throw {A B : Type} (m : M A) (k : A -> M B) (s s' : Store) (e : Exception) :
  m s = (s', Throw e) -> bind m k s = (s', Throw e).
Proof. unfold bind. intros ->. reflexivity. Qed.

(** A callback that succeeds without touching the state maps like a pure
    function. *)
Lemma mapM_from_ok {A B : Type} (f : A -> nat -> M B) (g : A -> nat -> B)
      (l : list A) (s : Store) :
  (forall x i, In x l -> f x i s = (s, Ok (g x i))) ->
  forall i, mapM_from i f l s = (s, Ok (JsArray.mapi_from i g l)).
Proof.
  induction l as [|x l IH]; intros Hf i; [reflexivity|].
  simpl. rewrite (bind_ok _ _ s s (g x i)) by (apply Hf; left; reflexivity).
  rewrite (bind_ok _ _ s s (JsArray.mapi_from (S i) g l))
    by (apply IH; intros y j Hy; apply Hf; right; exact Hy).
  reflexivity.
Qed.

Lemma render_keyed_mapi {A : Type} (g : A -> Node) (l : list A) (i : nat) :
  flat_map (fun item : nat * Node => render (snd item))
           (JsArray.mapi_from i (fun x idx => (idx, g x)) l) =
  flat_map (fun x => render (g x)) l.
Proof.
  revert i. induction l as [|x l IH]; intros i; [reflexivity|].
  simpl. rewrite IH. reflexivity.
Qed.

Lemma Tag_run (tag : string) (s : Store) :
  exists chip, Tag tag s = (s, Ok chip) /\ render chip = [chipHtml tag].
Proof. eexists. split; reflexivity. Qed.

Lemma chips_run (tags : list string) :
  exists chips,
    (forall s,
       mapM (fun tag idx => chip <- Tag tag ;; ret (idx, chip)) tags s = (s, Ok chips)) /\
    flat_map (fun item : nat * Node => render (snd item)) chips = map chipHtml tags.
Proof.
  eexists. split.
  - intros s. unfold mapM. apply mapM_from_ok with
      (g := fun tag idx =>
              (idx, El "div" [className chipClass] [El "p" [] [Txt tag]])).
    intros x i _. reflexivity.
  - rewrite (render_keyed_mapi
               (fun tag => El "div" [className chipClass] [El "p" [] [Txt tag]])).
    apply flat_map_singleton.
Qed.

Ltac run_card Hfmt Ht :=
  unfold PostCard; rewrite Hfmt, Ht; unfold bind at 1; unfold lift;
  cbv iota; unfold bind at 1.

Ltac query :=
  unfold dateTimes, byType, byClass;
  repeat (rewrite select_cons; simpl children);
  rewrite ?select_chips, ?select_nil;
  simpl;
  rewrite ?flat_map_nil, ?flat_map_singleton, ?app_nil_r.

(** The card of a post of the data model: [PostCard] returns, leaves the
    state alone, and commits one [article]. *)
Lemma PostCard_valid (LocalTZA : Z -> bool -> Z) (p : Post) :
  validPost p ->
  exists card h,
    (forall s, PostCard LocalTZA p s = (s, Ok card)) /\
    render card = [h] /\
    byType "article" [h] = [h] /\
    byClass tagRowClass [h] =
      match tags p with
      | Some (t :: ts) => [HEl "div" [className tagRowClass] (map chipHtml (t :: ts))]
      | _ => []
      end /\
    byClass chipClass [h] =
      map chipHtml (match tags p with Some ts => ts | None => [] end) /\
    dateTimes [h] = [Some (PStr (date p))] /\
    map textContent (byType "h3" [h]) = [title p] /\
    map textContent (byClass "mt-5 line-clamp-3 text-sm leading-6" [h]) =
      [description p].
Proof.
  intros Hv.
  destruct (validPost_format LocalTZA p
              [DateFns.LLLL; DateFns.Lit " "; DateFns.d_; DateFns.Lit ", ";
               DateFns.yyyy] Hv) as [formatted Hfmt].
  destruct (tags p) as [[|t ts]|] eqn:Ht.
  - eexists. eexists. split.
    { intros s. run_card Hfmt Ht. simpl. unfold ret. reflexivity. }
    split; [simpl; reflexivity|].
    unfold byType, byClass, dateTimes, byType. repeat split.
  - destruct (chips_run (t :: ts)) as (chips & Hrun & Hrender).
    eexists. eexists. split.
    { intros s. run_card Hfmt Ht.
      change (0 <? List.length (t :: ts))%nat with true. cbv iota.
      unfold bind at 1. rewrite Hrun. unfold ret. reflexivity. }
    split; [simpl render; rewrite app_nil_r, Hrender; reflexivity|].
    repeat split; query; reflexivity.
  - eexists. eexists. split.
    { intros s. run_card Hfmt Ht. simpl. unfold ret. reflexivity. }
    split; [simpl; reflexivity|].
    unfold byType, byClass, dateTimes, byType. repeat split.
Qed.

Lemma PostCard_run (LocalTZA : Z -> bool -> Z) (p : Post) (s : Store) :
  validPost p ->
  PostCard LocalTZA p s = (s, Ok (PostCard_element LocalTZA p)).
Proof.
  intros Hv. destruct (PostCard_valid LocalTZA p Hv) as (card & h & Hrun & _).
  unfold PostCard_element. rewrite (Hrun {| allPosts := [] |}). apply Hrun.
Qed.

Lemma PostCard_markup_element (LocalTZA : Z -> bool -> Z) (p : Post) :
  validPost p ->
  PostCard_markup LocalTZA p = render (PostCard_element LocalTZA p).
Proof.
  intros Hv. unfold PostCard_markup.
  rewrite (PostCard_run LocalTZA p _ Hv). reflexivity.
Qed.

Lemma PostCard_markup_article (LocalTZA : Z -> bool -> Z) (p : Post) :
  validPost p ->
  exists h,
    PostCard_markup LocalTZA p = [h] /\
    byType "article" [h] = [h] /\
    dateTimes [h] = [Some (PStr (date p))].
Proof.
  intros Hv.
  destruct (PostCard_valid LocalTZA p Hv)
    as (card & h & Hrun & Hr & Ha & _ & _ & Hd & _).
  exists h. unfold PostCard_markup. rewrite Hrun. simpl. rewrite Hr. auto.
Qed.

Lemma dateTimes_cons (h : Html) (l : list Html) :
  dateTimes (h :: l) = dateTimes [h] ++ dateTimes l.
Proof.
  unfold dateTimes, byType.
  change (h :: l) with ([h] ++ l). rewrite select_app, map_app. reflexivity.
Qed.

(** On a date that does not parse, [PostCard] throws. *)
Lemma PostCard_invalid (LocalTZA : Z -> bool -> Z) (p : Post) (s : Store) :
  ~ validPost p ->
  PostCard LocalTZA p s = (s, Throw (RangeError "Invalid time value")).
Proof.
  intros Hv. unfold PostCard.
  rewrite (invalid_format LocalTZA p _ Hv). reflexivity.
Qed.

Lemma textContent_chips (tags : list string) :
  map textContent (map chipHtml tags) = tags.
Proof.
  induction tags as [|t ts IH]; [reflexivity|].
  simpl. rewrite IH. reflexivity.
Qed.

Lemma flat_map_ext_In {A B : Type} (f g : A -> list B) (l : list A) :
  (forall x, In x l -> f x = g x) -> flat_map f l = flat_map g l.
Proof.
  induction l as [|x l IH]; intros H; [reflexivity|].
  simpl. rewrite (H x (or_introl eq_refl)), IH; [reflexivity|].
  intros y Hy. apply H. right. exact Hy.
Qed.

Lemma flat_map_Forall2_singleton {A B : Type} (f : A -> list B) (l : list A) :
  Forall (fun x => exists y, f x = [y]) l ->
  Forall2 (fun x y => f x = [y]) l (flat_map f l).
Proof.
  induction 1 as [|x l [y Hy] Hl IH]; simpl; [constructor|].
  rewrite Hy. simpl. constructor; assumption.
Qed.

Lemma dateTimes_cards (LocalTZA : Z -> bool -> Z) (l : list Post) :
  Forall validPost l ->
  dateTimes (flat_map (PostCard_markup LocalTZA) l) =
  map (fun p => Some (PStr (date p))) l.
Proof.
  induction 1 as [|p l Hp Hl IH]; [reflexivity|].
  destruct (PostCard_markup_article LocalTZA p Hp) as (h & Hm & _ & Hd).
  simpl. rewrite Hm. simpl app. rewrite dateTimes_cons, Hd, IH. reflexivity.
Qed.

(** The home page on posts of the data model: the shared array is sorted
    and the listing holds the posts' cards in the sorted order. *)
Lemma Home_run (LocalTZA : Z -> bool -> Z) (s : Store) :
  Forall validPost (allPosts s) ->
  exists page,
    Home LocalTZA s =
      ({| allPosts := JsArray.sort theComparator (allPosts s) |}, Ok page) /\
    byType "article" (render page) =
      flat_map (PostCard_markup LocalTZA) (JsArray.sort theComparator (allPosts s)).
Proof.
  intros Hv.
  pose proof (sort_Forall theComparator validPost (allPosts s) Hv) as Hsv.
  set (sorted := JsArray.sort theComparator (allPosts s)) in *.
  eexists. split.
  - unfold Home. unfold bind at 1. unfold allPosts_sort.
    change (JsArray.sort _ (allPosts s)) with sorted.
    cbv iota. unfold bind at 1. unfold mapM.
    rewrite (mapM_from_ok _ (fun post idx => (idx, PostCard_element LocalTZA post))).
    + unfold ret. reflexivity.
    + intros x i Hx. rewrite Forall_forall in Hsv.
      unfold bind. rewrite (PostCard_run LocalTZA x _ (Hsv x Hx)). reflexivity.
  - simpl render. rewrite app_nil_r.
    rewrite (render_keyed_mapi (PostCard_element LocalTZA)).
    query. rewrite select_flat_map.
    apply flat_map_ext_In. intros x Hx. rewrite Forall_forall in Hsv.
    destruct (PostCard_markup_article LocalTZA x (Hsv x Hx)) as (h & Hm & Ha & _).
    rewrite <- (PostCard_markup_element LocalTZA x (Hsv x Hx)), Hm. exact Ha.
Qed.

Lemma PostCard_state (LocalTZA : Z -> bool -> Z) (p : Post) (s : Store) :
  fst (PostCard LocalTZA p s) = s.
Proof.
  destruct (Iso.parse (date p)) eqn:E.
  - rewrite PostCard_run; [reflexivity|]. unfold validPost. congruence.
  - rewrite PostCard_invalid; [reflexivity|]. unfold validPost. intros H. apply H, E.
Qed.

Lemma mapM_from_state {A B : Type} (f : A -> nat -> M B) (l : list A) :
  (forall x i s, fst (f x i s) = s) ->
  forall i s, fst (mapM_from i f l s) = s.
Proof.
  intros Hf. induction l as [|x l IH]; intros i s; [reflexivity|].
  simpl. unfold bind at 1. specialize (Hf x i s).
  destruct (f x i s) as [s1 [y|e]]; simpl in Hf; subst s1; [|reflexivity].
  unfold bind at 1. specialize (IH (S i) s).
  destruct (mapM_from (S i) f l s) as [s2 [ys|e]]; simpl in IH; subst s2; reflexivity.
Qed.

(** Whatever the dates, what the home page leaves in the shared array is
    the sorted array. *)
Lemma Home_state (LocalTZA : Z -> bool -> Z) (s : Store) :
  fst (Home LocalTZA s) = {| allPosts := JsArray.sort theComparator (allPosts s) |}.
Proof.
  unfold Home. unfold bind at 1. unfold allPosts_sort.
  change (JsArray.sort _ (allPosts s)) with (JsArray.sort theComparator (allPosts s)).
  cbv iota. unfold bind at 1. unfold mapM.
  match goal with
  | |- context [mapM_from 0%nat ?f ?l ?s0] =>
      pose proof (mapM_from_state f l) as Hst;
      destruct (mapM_from 0%nat f l s0) as [s1 [cards|e]] eqn:E
  end.
  - assert (H : fst (s1, @Ok (list (nat * Node)) cards) =
                {| allPosts := JsArray.sort theComparator (allPosts s) |}).
    { rewrite <- E. apply Hst. intros x i s2. unfold bind.
      pose proof (PostCard_state LocalTZA x s2) as Hp.
      destruct (PostCard LocalTZA x s2) as [s3 [c|e]]; simpl in *; assumption. }
    simpl in H. subst s1. reflexivity.
  - assert (H : fst (s1, @Throw (list (nat * Node)) e) =
                {| allPosts := JsArray.sort theComparator (allPosts s) |}).
    { rewrite <- E. apply Hst. intros x i s2. unfold bind.
      pose proof (PostCard_state LocalTZA x s2) as Hp.
      destruct (PostCard LocalTZA x s2) as [s3 [c|e']]; simpl in *; assumption. }
    simpl in H. subst s1. reflexivity.
Qed.

(** * The home page listing *)

(** C3. With no posts, the home page returns its page without throwing, the
    listing container is there and empty, and no card is committed. *)
Theorem Home_no_posts (LocalTZA : Z -> bool -> Z) :
  exists page,
    Home LocalTZA {| allPosts := [] |} = ({| allPosts := [] |}, Ok page) /\
    byType "article" (render page) = [] /\
    map children
        (byClass "mt-10 space-y-12 border-t border-gray-200 pt-10 dark:border-gray-700"
                 (render page)) = [[]].
Proof.
  eexists. split; [reflexivity|]. split; reflexivity.
Qed.

(** C4. The home page listing neither changes nor drops nor adds a post
    record: the records in the shared array afterwards are the records that
    were there before, each with the same fields, only rearranged. *)
Theorem Home_keeps_posts (LocalTZA : Z -> bool -> Z) (s : Store) :
  Permutation (allPosts (fst (Home LocalTZA s))) (allPosts s) /\
  (forall p, In p (allPosts (fst (Home LocalTZA s))) <-> In p (allPosts s)) /\
  List.length (allPosts (fst (Home LocalTZA s))) = List.length (allPosts s).
Proof.
  rewrite Home_state. simpl.
  split; [apply sort_Permutation|].
  split; [intros p; apply sort_In | apply sort_length].
Qed.

(** C10. On posts of the data model the listing's sort is idempotent:
    sorting the sorted array returns it unchanged, so running the home page
    again on the state it left keeps that state and returns the same page. *)
Theorem Home_sort_idempotent (LocalTZA : Z -> bool -> Z) (s : Store) :
  Forall validPost (allPosts s) ->
  JsArray.sort theComparator (JsArray.sort theComparator (allPosts s)) =
    JsArray.sort theComparator (allPosts s) /\
  Home LocalTZA (fst (Home LocalTZA s)) =
    (fst (Home LocalTZA s), snd (Home LocalTZA s)).
Proof.
  intros Hv.
  pose proof (sort_idempotent theComparator timeValue validPost theComparator_key
                (allPosts s) Hv) as Hid.
  split; [exact Hid|].
  pose proof (sort_Forall theComparator validPost (allPosts s) Hv) as Hsv.
  destruct (Home_run LocalTZA s Hv) as (page & Hrun & _).
  rewrite Hrun. simpl fst. simpl snd.
  unfold Home in *. unfold bind at 1. unfold bind at 1 in Hrun.
  unfold allPosts_sort in *. cbv iota in *. simpl allPosts.
  change (JsArray.sort _ (JsArray.sort _ (allPosts s)))
    with (JsArray.sort theComparator (JsArray.sort theComparator (allPosts s))).
  rewrite Hid. exact Hrun.
Qed.

Lemma Home_sort_idempotent_witness :
  JsArray.sort theComparator (JsArray.sort theComparator (allPosts sampleFeed)) =
    JsArray.sort theComparator (allPosts sampleFeed) /\
  Home hostTZA (fst (Home hostTZA sampleFeed)) =
    (fst (Home hostTZA sampleFeed), snd (Home hostTZA sampleFeed)).
Proof.
  apply (Home_sort_idempotent hostTZA sampleFeed).
  repeat constructor; intros H; vm_compute in H; discriminate H.
Defined.

(** C6. Three posts dated 2024-01-01, 2024-06-15 and 2023-12-31, given in
    that order, are shown in the order 2024-06-15, 2024-01-01, 2023-12-31,
    whatever their other fields. *)
Theorem Home_example_three_dates (LocalTZA : Z -> bool -> Z)
    (t1 t2 t3 d1 d2 d3 u1 u2 u3 : string) (g1 g2 g3 : option (list string)) :
  let a := {| title := t1; date := "2024-01-01"; description := d1;
              url := u1; tags := g1 |} in
  let b := {| title := t2; date := "2024-06-15"; description := d2;
              url := u2; tags := g2 |} in
  let c := {| title := t3; date := "2023-12-31"; description := d3;
              url := u3; tags := g3 |} in
  exists page cardA cardB cardC,
    snd (Home LocalTZA {| allPosts := [a; b; c] |}) = Ok page /\
    PostCard_markup LocalTZA a = [cardA] /\
    PostCard_markup LocalTZA b = [cardB] /\
    PostCard_markup LocalTZA c = [cardC] /\
    byType "article" (render page) = [cardB; cardA; cardC] /\
    dateTimes (byType "article" (render page)) =
      [Some (PStr "2024-06-15"); Some (PStr "2024-01-01"); Some (PStr "2023-12-31")].
Proof.
  intros a b c.
  assert (Ha : validPost a) by (intros H; vm_compute in H; discriminate H).
  assert (Hb : validPost b) by (intros H; vm_compute in H; discriminate H).
  assert (Hc : validPost c) by (intros H; vm_compute in H; discriminate H).
  destruct (Home_run LocalTZA {| allPosts := [a; b; c] |}) as (page & Hrun & Hcards).
  { simpl. repeat constructor; assumption. }
  assert (Hsort : JsArray.sort theComparator [a; b; c] = [b; a; c])
    by (vm_compute; reflexivity).
  simpl allPosts in Hrun, Hcards. rewrite Hsort in Hrun, Hcards.
  destruct (PostCard_markup_article LocalTZA a Ha) as (cardA & HA & _ & DA).
  destruct (PostCard_markup_article LocalTZA b Hb) as (cardB & HB & _ & DB).
  destruct (PostCard_markup_article LocalTZA c Hc) as (cardC & HC & _ & DC).
  exists page, cardA, cardB, cardC.
  split; [rewrite Hrun; reflexivity|].
  split; [exact HA|]. split; [exact HB|]. split; [exact HC|].
  assert (Hl : byType "article" (render page) = [cardB; cardA; cardC]).
  { rewrite Hcards. simpl flat_map. rewrite HA, HB, HC. reflexivity. }
  split; [exact Hl|].
  rewrite Hl.
  rewrite (dateTimes_cons cardB), (dateTimes_cons cardA), DA, DB, DC.
  reflexivity.
Qed.

(** * The post card *)

(** C2. For a post of the data model, the card has a tag row exactly when
    the post has a non-empty tag list; with tags [t1 .. tn], n >= 1, the row
    is the only one, the chips are the row's children, and there are exactly
    n of them, labelled [t1 .. tn] in that order. *)
Theorem PostCard_tag_row (LocalTZA : Z -> bool -> Z) (p : Post) (s : Store) :
  validPost p ->
  exists card,
    PostCard LocalTZA p s = (s, Ok card) /\
    (byClass tagRowClass (render card) <> [] <->
     exists t ts, tags p = Some (t :: ts)) /\
    (forall ts, tags p = Some ts -> (1 <= List.length ts)%nat ->
       exists row,
         byClass tagRowClass (render card) = [row] /\
         byClass chipClass (render card) = children row /\
         List.length (children row) = List.length ts /\
         chipLabels (render card) = ts).
Proof.
  intros Hv.
  destruct (PostCard_valid LocalTZA p Hv)
    as (card & h & Hrun & Hr & _ & Hrow & Hchips & _).
  exists card. split; [apply Hrun|]. rewrite Hr. split.
  - rewrite Hrow. destruct (tags p) as [[|t ts]|]; split.
    + intros H. exfalso. apply H. reflexivity.
    + intros (t & ts & H). discriminate H.
    + intros _. exists t, ts. reflexivity.
    + intros _. discriminate.
    + intros H. exfalso. apply H. reflexivity.
    + intros (t & ts & H). discriminate H.
  - intros ts Hts Hlen. rewrite Hts in Hrow, Hchips.
    destruct ts as [|t ts]; [simpl in Hlen; lia|].
    eexists. split; [exact Hrow|].
    split; [rewrite Hchips; reflexivity|].
    split; [simpl; rewrite length_map; reflexivity|].
    unfold chipLabels. rewrite Hchips. apply textContent_chips.
Qed.

Lemma PostCard_tag_row_witness :
  exists card,
    PostCard hostTZA postNestjs sampleFeed = (sampleFeed, Ok card) /\
    (byClass tagRowClass (render card) <> [] <->
     exists t ts, tags postNestjs = Some (t :: ts)) /\
    (forall ts, tags postNestjs = Some ts -> (1 <= List.length ts)%nat ->
       exists row,
         byClass tagRowClass (render card) = [row] /\
         byClass chipClass (render card) = children row /\
         List.length (children row) = List.length ts /\
         chipLabels (render card) = ts).
Proof.
  apply (PostCard_tag_row hostTZA postNestjs sampleFeed).
  intros H; vm_compute in H; discriminate H.
Defined.

(** C7. A post of the data model whose tags are ["backend","devops"] gets
    exactly two tag chips, the first labelled "backend", the second
    "devops". *)
Theorem PostCard_example_backend_devops
    (LocalTZA : Z -> bool -> Z) (p : Post) (s : Store) :
  validPost p ->
  tags p = Some ["backend"; "devops"] ->
  exists card,
    PostCard LocalTZA p s = (s, Ok card) /\
    byClass chipClass (render card) = [chipHtml "backend"; chipHtml "devops"] /\
    chipLabels (render card) = ["backend"; "devops"].
Proof.
  intros Hv Ht.
  destruct (PostCard_valid LocalTZA p Hv)
    as (card & h & Hrun & Hr & _ & _ & Hchips & _).
  exists card. split; [apply Hrun|].
  rewrite Hr. unfold chipLabels. rewrite Hchips, Ht. split; reflexivity.
Qed.

Lemma PostCard_example_backend_devops_witness :
  exists card,
    PostCard hostTZA postNestjs sampleFeed = (sampleFeed, Ok card) /\
    byClass chipClass (render card) = [chipHtml "backend"; chipHtml "devops"] /\
    chipLabels (render card) = ["backend"; "devops"].
Proof.
  apply (PostCard_example_backend_devops hostTZA postNestjs sampleFeed).
  - intros H; vm_compute in H; discriminate H.
  - reflexivity.
Defined.

(** C9. For a post of the data model whose [tags] field is absent,
    [PostCard] returns without throwing, commits no tag row and no chip,
    and commits exactly the markup it commits for the same post with an
    empty tag list: the date, the linked title and the description. *)
Theorem PostCard_absent_tags (LocalTZA : Z -> bool -> Z) (p : Post) (s : Store) :
  validPost p ->
  tags p = None ->
  exists card cardEmpty,
    PostCard LocalTZA p s = (s, Ok card) /\
    PostCard LocalTZA (withTags p (Some [])) s = (s, Ok cardEmpty) /\
    render card = render cardEmpty /\
    byClass tagRowClass (render card) = [] /\
    byClass chipClass (render card) = [] /\
    dateTimes (render card) = [Some (PStr (date p))] /\
    map textContent (byType "h3" (render card)) = [title p] /\
    map textContent
        (byClass "mt-5 line-clamp-3 text-sm leading-6" (render card)) =
      [description p].
Proof.
  intros Hv Ht.
  destruct (validPost_format LocalTZA p
              [DateFns.LLLL; DateFns.Lit " "; DateFns.d_; DateFns.Lit ", ";
               DateFns.yyyy] Hv) as [formatted Hfmt].
  eexists. eexists. split.
  { run_card Hfmt Ht. simpl. unfold ret. reflexivity. }
  split.
  { unfold PostCard. simpl date. simpl tags. rewrite Hfmt.
    unfold bind at 1. unfold lift. cbv iota. unfold bind at 1.
    simpl. unfold ret. reflexivity. }
  split; [reflexivity|].
  repeat split.
Qed.

Lemma PostCard_absent_tags_witness :
  exists card cardEmpty,
    PostCard hostTZA postHello sampleFeed = (sampleFeed, Ok card) /\
    PostCard hostTZA (withTags postHello (Some [])) sampleFeed =
      (sampleFeed, Ok cardEmpty) /\
    render card = render cardEmpty /\
    byClass tagRowClass (render card) = [] /\
    byClass chipClass (render card) = [] /\
    dateTimes (render card) = [Some (PStr (date postHello))] /\
    map textContent (byType "h3" (render card)) = [title postHello] /\
    map textContent
        (byClass "mt-5 line-clamp-3 text-sm leading-6" (render card)) =
      [description postHello].
Proof.
  apply (PostCard_absent_tags hostTZA postHello sampleFeed).
  - intros H; vm_compute in H; discriminate H.
  - reflexivity.
Defined.

(** * Navigation and the presentational components *)

(** C5. The navigation bars link to exactly the eight routes Home, Posts,
    Tags, About, DevOps, Backend, Me and Sponsor, every target is a fixed
    site-relative path, and every target leads to a static page of its
    site: a page component of the blog for the links of [Navigation], a
    document of the documentation site for the entries of [nav].  [Home] and
    [About] are the pages at [/] and [/about]; the pages at [/posts] and
    [/tags] are whatever page components stand there. *)
Theorem navigation_surface_routes
    (LocalTZA : Z -> bool -> Z) (Posts Tags : M Node) (s : Store) :
  exists bar,
    Navigation s = (s, Ok bar) /\
    links (render bar) =
      [("Home", "/"); ("Post", "/posts"); ("Tags", "/tags"); ("About", "/about")] /\
    map (fun item => (VitePress.text item, VitePress.link item)) VitePress.nav =
      [("Home", "/"); ("DevOps", "/devops"); ("Backend", "/backend");
       ("Me", "/me"); ("Sponsor", "/sponsor")] /\
    (forall target,
       In target (map snd (navigationSurface (render bar))) <->
       exists r : Route, path r = target) /\
    forallb staticTarget (map snd (navigationSurface (render bar))) = true /\
    (forall target,
       In target (map snd (links (render bar))) ->
       exists page,
         pageAt (blogPages LocalTZA Posts Tags) target = Some (Component page)) /\
    (forall item,
       In item (VitePress.nav ++ VitePress.navShort) ->
       exists layout title,
         pageAt docPages (VitePress.link item) = Some (Markdown layout title)) /\
    pageAt (blogPages LocalTZA Posts Tags) "/" = Some (Component (Home LocalTZA)) /\
    pageAt (blogPages LocalTZA Posts Tags) "/about" = Some (Component About).
Proof.
  eexists. split; [reflexivity|].
  split; [reflexivity|]. split; [reflexivity|].
  split; [|split; [reflexivity|split; [|split; [|split; reflexivity]]]].
  - intros target. split.
    + intros H. vm_compute in H.
      repeat (destruct H as [H|H];
              [first [ exists RHome; exact H | exists RPosts; exact H
                     | exists RTags; exact H | exists RAbout; exact H
                     | exists RDevOps; exact H | exists RBackend; exact H
                     | exists RMe; exact H | exists RSponsor; exact H ]|]).
      contradiction.
    + intros [r <-]. destruct r; vm_compute; tauto.
  - intros target H. change (In target ["/"; "/posts"; "/tags"; "/about"]) in H.
    repeat (destruct H as [<-|H]; [eexists; reflexivity|]). contradiction.
  - intros item H.
    repeat (destruct H as [<-|H]; [eexists; eexists; reflexivity|]). contradiction.
Qed.

(** Of the eight routes, six have their page among the sources.  The page
    components the sources hold leave [/posts] and [/tags] without a page. *)
Lemma pages_in_sources (LocalTZA : Z -> bool -> Z) :
  pageAt (blogPagesInSources LocalTZA) "/posts" = None /\
  pageAt (blogPagesInSources LocalTZA) "/tags" = None /\
  map fst (blogPagesInSources LocalTZA) = ["/"; "/about"] /\
  map fst docPages = ["/"; "/devops"; "/backend"; "/me"; "/sponsor"].
Proof. repeat split. Qed.

(** C8. [Navigation], [Profile] and [Footer] are pure: each returns one and
    the same element whatever the module state, never throws, and leaves
    the state as it found it. *)
Theorem presentational_components_pure :
  pureComponent Navigation /\ pureComponent Profile /\ pureComponent Footer.
Proof.
  repeat split; eexists; intros s; reflexivity.
Qed.

(** * Remarks *)

(** The home page is not pure in that sense: it writes the shared array. *)
Lemma Home_not_pure : ~ pureComponent (Home hostTZA).
Proof.
  intros [out H]. specialize (H sampleFeed).
  apply (f_equal fst) in H. rewrite Home_state in H.
  vm_compute in H. discriminate H.
Qed.

(** The listing sorts [allPosts] in place: the array every importer shares
    changes order, while its records stay what they were. *)
Lemma Home_reorders_allPosts :
  allPosts (fst (Home hostTZA sampleFeed)) = [postDocker; postNestjs; postHello].
Proof. rewrite Home_state. vm_compute. reflexivity. Qed.

(** Outside the data model: next to a post without a date the comparator
    answers [NaN], so that a sort which compares neighbours leaves an older
    post before a newer one, and the card of the undated post throws. *)
Lemma Home_undated_post :
  snd (Home hostTZA draftFeed) = Throw (RangeError "Invalid time value") /\
  theComparator postHello postUndated = NaN /\
  theComparator postUndated postNestjs = NaN /\
  ~ dateGe postHello postNestjs.
Proof.
  split; [vm_compute; reflexivity|].
  split; [reflexivity|]. split; [reflexivity|].
  unfold dateGe. vm_compute. discriminate.
Qed.

(** On posts of the data model the comparator is consistent, and any sorted,
    stable arrangement of the posts is the one [JsArray.sort] returns: the
    listing does not depend on the engine's sorting algorithm. *)
Lemma sort_engine_independent (l l' : list Post) :
  Forall validPost l ->
  StronglySorted (keyGe timeValue) l' ->
  (forall k, withKey timeValue k l' = withKey timeValue k l) ->
  l' = JsArray.sort theComparator l.
Proof.
  intros Hv Hs Hk.
  apply (sorted_stable_unique timeValue); [exact Hs | |].
  - apply (sort_sorted theComparator timeValue validPost theComparator_key). exact Hv.
  - intros k. rewrite Hk. symmetry.
    apply (sort_stable theComparator timeValue validPost theComparator_key). exact Hv.
Qed.

(** * Calendar arithmetic *)

Lemma DayFromYear_shift (y : Z) :
  ES.DayFromYear y + 719468 = 365 * (y - 1) + (y - 1) / 4 - (y - 1) / 100 + (y - 1) / 400 + 306.
Proof.
  unfold ES.DayFromYear. Z.to_euclidean_division_equations; lia.
Qed.

(** Year and day of year, counted from the first of March. *)
Lemma civil_of_march_year (yy doy : Z) :
  0 <= doy <= 364 + (if ES.InLeapYear (yy + 1) then 1 else 0) ->
  let z := 365 * yy + yy / 4 - yy / 100 + yy / 400 + doy in
  let era := z / 146097 in
  let doe := z - era * 146097 in
  let yoe := (doe - doe / 1460 + doe / 36524 - doe / 146096) / 365 in
  yoe + era * 400 = yy /\ doe - (365 * yoe + yoe / 4 - yoe / 100) = doy.
Proof.
  intros H z era doe yoe.
  assert (Hera : era = yy / 400 /\ doe = 365 * (yy mod 400) + (yy mod 400) / 4 - (yy mod 400) / 100 + doy).
  { subst era doe z. unfold ES.InLeapYear in H.
    destruct ((((yy + 1) mod 4 =? 0) && negb ((yy + 1) mod 100 =? 0)) || ((yy + 1) mod 400 =? 0)) eqn:E;
    Z.to_euclidean_division_equations; lia. }
  destruct Hera as [Hera Hdoe].
  assert (Hyoe : yoe = yy mod 400).
  { subst yoe. rewrite Hdoe. unfold ES.InLeapYear in H.
    destruct ((((yy + 1) mod 4 =? 0) && negb ((yy + 1) mod 100 =? 0)) || ((yy + 1) mod 400 =? 0)) eqn:E;
    Z.to_euclidean_division_equations; lia. }
  split.
  - rewrite Hyoe, Hera. Z.to_euclidean_division_equations; lia.
  - rewrite Hyoe, Hdoe. lia.
Qed.

Lemma CivilFromDay_march (yy doy : Z) :
  0 <= doy <= 364 + (if ES.InLeapYear (yy + 1) then 1 else 0) ->
  ES.CivilFromDay (365 * yy + yy / 4 - yy / 100 + yy / 400 + doy - 719468) =
  let mp := (5 * doy + 2) / 153 in
  let m := if mp <? 10 then mp + 3 else mp - 9 in
  (yy + (if m <=? 2 then 1 else 0), m - 1, doy - (153 * mp + 2) / 5 + 1).
Proof.
  intros H. unfold ES.CivilFromDay.
  replace (365 * yy + yy / 4 - yy / 100 + yy / 400 + doy - 719468 + 719468)
    with (365 * yy + yy / 4 - yy / 100 + yy / 400 + doy) by lia.
  destruct (civil_of_march_year yy doy H) as [Hy Hd].
  cbv zeta in Hy, Hd. cbv zeta. rewrite Hd, Hy. reflexivity.
Qed.

Lemma CivilFromDay_march_at (yy doy mp m carry : Z) :
  0 <= doy <= 364 + (if ES.InLeapYear (yy + 1) then 1 else 0) ->
  (5 * doy + 2) / 153 = mp ->
  (if mp <? 10 then mp + 3 else mp - 9) = m ->
  (if m <=? 2 then 1 else 0) = carry ->
  ES.CivilFromDay (365 * yy + yy / 4 - yy / 100 + yy / 400 + doy - 719468) =
  (yy + carry, m - 1, doy - (153 * mp + 2) / 5 + 1).
Proof.
  intros H <- <- <-. apply CivilFromDay_march. exact H.
Qed.

Ltac civil_case y d yy off mpv mv cv :=
  replace (ES.CivilFromDay _) with
    (ES.CivilFromDay (365 * yy + yy / 4 - yy / 100 + yy / 400 + (off + d - 1) - 719468))
    by (apply (f_equal ES.CivilFromDay); lia);
  rewrite (CivilFromDay_march_at yy (off + d - 1) mpv mv cv);
  [ f_equal; [f_equal; lia | Z.to_euclidean_division_equations; lia]
  | try (replace (y - 1 + 1) with y by lia;
         match goal with H : ES.InLeapYear y = _ |- _ => rewrite H end; cbv iota);
    try destruct (ES.InLeapYear (yy + 1)); lia
  | Z.to_euclidean_division_equations; lia
  | reflexivity
  | reflexivity ].

(** The civil date of a day number built from a civil date is that date,
    for every year. *)
Lemma CivilFromDay_MakeDay (y m d : Z) :
  0 <= m <= 11 -> 1 <= d <= ES.DaysInMonth y m ->
  ES.CivilFromDay (ES.MakeDay y m d) = (y, m, d).
Proof.
  intros Hm Hd.
  assert (Hleap : ES.InLeapYear y = true -> y / 4 - y / 100 + y / 400 = (y - 1) / 4 - (y - 1) / 100 + (y - 1) / 400 + 1).
  { unfold ES.InLeapYear. intros E. Z.to_euclidean_division_equations; lia. }
  assert (Hcommon : ES.InLeapYear y = false -> y / 4 - y / 100 + y / 400 = (y - 1) / 4 - (y - 1) / 100 + (y - 1) / 400).
  { unfold ES.InLeapYear. intros E. Z.to_euclidean_division_equations; lia. }
  assert (Hms : m = 0 \/ m = 1 \/ m = 2 \/ m = 3 \/ m = 4 \/ m = 5 \/ m = 6 \/ m = 7 \/ m = 8 \/ m = 9 \/ m = 10 \/ m = 11) by lia.
  pose proof (DayFromYear_shift y) as Hs.
  unfold ES.MakeDay.
  rewrite (Z.div_small m 12), (Z.mod_small m 12), Z.add_0_r by lia.
  repeat (destruct Hms as [-> | Hms]); [ .. | subst m ].
  all: repeat match goal with
              | |- context [Z.to_nat ?k] =>
                  let n := eval vm_compute in (Z.to_nat k) in
                  change (Z.to_nat k) with n
              end.
  all: cbn [ES.DaysBeforeMonth ES.DaysInMonth Z.of_nat Pos.of_succ_nat Pos.succ] in *.
  all: destruct (ES.InLeapYear y) eqn:E;
       [specialize (Hleap eq_refl); clear Hcommon | specialize (Hcommon eq_refl); clear Hleap].
  - civil_case y d (y - 1) 306 10 1 1.
  - civil_case y d (y - 1) 306 10 1 1.
  - civil_case y d (y - 1) 337 11 2 1.
  - civil_case y d (y - 1) 337 11 2 1.
  - civil_case y d y 0 0 3 0.
  - civil_case y d y 0 0 3 0.
  - civil_case y d y 31 1 4 0.
  - civil_case y d y 31 1 4 0.
  - civil_case y d y 61 2 5 0.
  - civil_case y d y 61 2 5 0.
  - civil_case y d y 92 3 6 0.
  - civil_case y d y 92 3 6 0.
  - civil_case y d y 122 4 7 0.
  - civil_case y d y 122 4 7 0.
  - civil_case y d y 153 5 8 0.
  - civil_case y d y 153 5 8 0.
  - civil_case y d y 184 6 9 0.
  - civil_case y d y 184 6 9 0.
  - civil_case y d y 214 7 10 0.
  - civil_case y d y 214 7 10 0.
  - civil_case y d y 245 8 11 0.
  - civil_case y d y 245 8 11 0.
  - civil_case y d y 275 9 12 0.
  - civil_case y d y 275 9 12 0.
Qed.

(** * Facts about the date strings *)

Lemma digit_range (c : ascii) (d : Z) : Iso.digit c = Some d -> 0 <= d <= 9.
Proof.
  unfold Iso.digit.
  destruct ((48 <=? Z.of_nat (nat_of_ascii c)) && (Z.of_nat (nat_of_ascii c) <=? 57)) eqn:E;
    [|discriminate].
  intros H. injection H as <-. lia.
Qed.

Lemma digits_range (n : nat) (acc : Z) (cs : list ascii) (v : Z) (rest : list ascii) :
  Iso.digits n acc cs = Some (v, rest) ->
  0 <= acc ->
  0 <= v < (acc + 1) * 10 ^ Z.of_nat n.
Proof.
  revert acc cs. induction n as [|n IH]; intros acc cs H Hacc.
  - cbn [Iso.digits] in H. injection H as <- _. simpl. lia.
  - cbn [Iso.digits] in H. destruct cs as [|c cs]; [discriminate|].
    destruct (Iso.digit c) as [d|] eqn:Ed; [|discriminate].
    apply digit_range in Ed. apply IH in H; [|lia].
    rewrite Nat2Z.inj_succ, Z.pow_succ_r by lia.
    assert (0 < 10 ^ Z.of_nat n) by (apply Z.pow_pos_nonneg; lia).
    nia.
Qed.

Lemma parseTime_range (cs : list ascii) (t : Iso.TimeOfDay) :
  Iso.parseTime cs = Some t ->
  0 <= Iso.timeOfDay (Some t) < ES.msPerDay.
Proof.
  unfold Iso.parseTime, Iso.bind. intros H.
  destruct (Iso.digits 2 0 cs) as [[h r1]|] eqn:Eh; [|discriminate].
  destruct (Iso.expect ":" r1) as [r2|]; [|discriminate].
  destruct (Iso.digits 2 0 r2) as [[mi r3]|] eqn:Em; [|discriminate].
  destruct (Iso.expect ":" r3) as [r4|]; [|discriminate].
  destruct (Iso.digits 2 0 r4) as [[sec r5]|] eqn:Es; [|discriminate].
  destruct (Iso.expect "." r5) as [r6|]; [|discriminate].
  destruct (Iso.digits 3 0 r6) as [[ms r7]|] eqn:Ems; [|discriminate].
  destruct r7 as [|z r8]; [discriminate|].
  destruct z as [[] [] [] [] [] [] [] []]; try discriminate.
  destruct r8; [|discriminate].
  destruct (Iso.validTime h mi sec) eqn:Ev; [|discriminate].
  injection H as <-.
  pose proof (digits_range _ _ _ _ _ Eh (Z.le_refl 0)) as Bh.
  pose proof (digits_range _ _ _ _ _ Em (Z.le_refl 0)) as Bm.
  pose proof (digits_range _ _ _ _ _ Es (Z.le_refl 0)) as Bs.
  pose proof (digits_range _ _ _ _ _ Ems (Z.le_refl 0)) as Bms.
  unfold Iso.validTime in Ev. unfold Iso.timeOfDay, ES.MakeTime, ES.msPerDay.
  cbn [Iso.hours Iso.minutes Iso.seconds Iso.milliseconds].
  change (10 ^ Z.of_nat 3) with 1000 in Bms.
  change (10 ^ Z.of_nat 2) with 100 in Bh, Bm, Bs. lia.
Qed.

(** What a date string that parses holds: a day that exists, and a time of
    day inside the day. *)
Lemma parse_fields (s : string) (ds : Iso.DateString) :
  Iso.parse s = Some ds ->
  1 <= Iso.month ds <= 12 /\
  1 <= Iso.day ds <= ES.DaysInMonth (Iso.year ds) (Iso.month ds - 1) /\
  0 <= Iso.timeOfDay (Iso.time ds) < ES.msPerDay.
Proof.
  unfold Iso.parse, Iso.bind. intros H.
  destruct (Iso.digits 4 0 (list_ascii_of_string s)) as [[y r1]|]; [|discriminate].
  destruct (Iso.expect "-" r1) as [r2|]; [|discriminate].
  destruct (Iso.digits 2 0 r2) as [[m r3]|]; [|discriminate].
  destruct (Iso.expect "-" r3) as [r4|]; [|discriminate].
  destruct (Iso.digits 2 0 r4) as [[d r5]|]; [|discriminate].
  destruct (Iso.validDate y m d) eqn:Ev; [|discriminate].
  unfold Iso.validDate in Ev.
  destruct r5 as [|c r6].
  - injection H as <-. cbn [Iso.year Iso.month Iso.day Iso.time Iso.timeOfDay].
    unfold ES.msPerDay. lia.
  - destruct c as [[] [] [] [] [] [] [] []]; try discriminate.
    destruct (Iso.parseTime r6) as [t|] eqn:Et; [|discriminate].
    injection H as <-. cbn [Iso.year Iso.month Iso.day Iso.time].
    apply parseTime_range in Et. lia.
Qed.

(** * Facts about the date a card shows *)

Lemma Day_of_day_time (k w : Z) :
  0 <= w < ES.msPerDay -> ES.Day (k * ES.msPerDay + w) = k.
Proof.
  unfold ES.Day, ES.msPerDay. intros H. Z.to_euclidean_division_equations; lia.
Qed.

Lemma longDateOfDay_MakeDay (y m d : Z) :
  1 <= m <= 12 -> 1 <= d <= ES.DaysInMonth y (m - 1) ->
  longDateOfDay (ES.MakeDay y (m - 1) d) = longDate y m d.
Proof.
  intros Hm Hd. unfold longDateOfDay.
  rewrite CivilFromDay_MakeDay by lia. reflexivity.
Qed.

(** [format] prints the civil date of the local day. *)
Lemma format_longDate (LocalTZA : Z -> bool -> Z) (t : Z) :
  DateFns.format LocalTZA (Num t)
    [DateFns.LLLL; DateFns.Lit " "; DateFns.d_; DateFns.Lit ", "; DateFns.yyyy] =
  Ok (longDateOfDay (ES.Day (ES.LocalTime LocalTZA t))).
Proof. reflexivity. Qed.

Lemma utcTime_split (ds : Iso.DateString) :
  Iso.utcTime ds =
  ES.MakeDay (Iso.year ds) (Iso.month ds - 1) (Iso.day ds) * ES.msPerDay +
  Iso.timeOfDay (Iso.time ds).
Proof. reflexivity. Qed.

(** A calendar date read by [parseISO] on a host with a fixed offset is
    local midnight of that date. *)
Lemma parseISO_date_only (c : Z) (s : string) (ds : Iso.DateString) :
  Iso.parse s = Some ds -> Iso.time ds = None ->
  DateFns.parseISO (fixedOffset c) s =
  Num (ES.MakeDay (Iso.year ds) (Iso.month ds - 1) (Iso.day ds) * ES.msPerDay - c).
Proof.
  intros Hp Ht. destruct (parse_fields s ds Hp) as (Hm & Hd & _).
  unfold DateFns.parseISO. rewrite Hp, Ht.
  rewrite utcTime_split, Ht. cbn [Iso.timeOfDay].
  set (md := ES.MakeDay (Iso.year ds) (Iso.month ds - 1) (Iso.day ds)).
  unfold ES.YearFromTime, ES.MonthFromTime, ES.DateFromTime.
  rewrite (Day_of_day_time md 0) by (unfold ES.msPerDay; lia).
  subst md. rewrite CivilFromDay_MakeDay by lia. cbn [fst snd].
  unfold ES.setHours, ES.setFullYear, ES.UTC, ES.LocalTime, fixedOffset,
    ES.MakeDate, ES.MakeTime, ES.TimeWithinDay.
  set (md := ES.MakeDay (Iso.year ds) (Iso.month ds - 1) (Iso.day ds)).
  replace (md * ES.msPerDay + (0 + c) mod ES.msPerDay - c + c)
    with (md * ES.msPerDay + (0 + c) mod ES.msPerDay) by lia.
  rewrite Day_of_day_time by (apply Z.mod_pos_bound; unfold ES.msPerDay; lia).
  f_equal. lia.
Qed.

Lemma parseISO_instant (LocalTZA : Z -> bool -> Z) (s : string)
      (ds : Iso.DateString) (t : Iso.TimeOfDay) :
  Iso.parse s = Some ds -> Iso.time ds = Some t ->
  DateFns.parseISO LocalTZA s = Num (Iso.utcTime ds).
Proof.
  intros Hp Ht. unfold DateFns.parseISO. rewrite Hp, Ht. reflexivity.
Qed.

(** * More facts about the post card *)

Lemma mapi_from_keys {A B : Type} (g : A -> B) (l : list A) (i : nat) :
  map fst (JsArray.mapi_from i (fun x idx => (idx, g x)) l) = seq i (List.length l).
Proof.
  revert i. induction l as [|x l IH]; intros i; [reflexivity|].
  simpl. rewrite IH. reflexivity.
Qed.

Lemma mapi_from_keyedLists {A : Type} (g : A -> Node) (l : list A) (i : nat) :
  flat_map (fun item : nat * Node => keyedLists (snd item))
           (JsArray.mapi_from i (fun x idx => (idx, g x)) l) =
  flat_map (fun x => keyedLists (g x)) l.
Proof.
  revert i. induction l as [|x l IH]; intros i; [reflexivity|].
  simpl. rewrite IH. reflexivity.
Qed.

Lemma chips_run_keys (tags : list string) :
  exists chips,
    (forall s,
       mapM (fun tag idx => chip <- Tag tag ;; ret (idx, chip)) tags s = (s, Ok chips)) /\
    flat_map (fun item : nat * Node => render (snd item)) chips = map chipHtml tags /\
    map fst chips = seq 0 (List.length tags) /\
    flat_map (fun item : nat * Node => keyedLists (snd item)) chips = [].
Proof.
  eexists. split; [|split; [|split]].
  - intros s. unfold mapM. apply mapM_from_ok with
      (g := fun tag idx =>
              (idx, El "div" [className chipClass] [El "p" [] [Txt tag]])).
    intros x i _. reflexivity.
  - rewrite (render_keyed_mapi
               (fun tag => El "div" [className chipClass] [El "p" [] [Txt tag]])).
    apply flat_map_singleton.
  - apply (mapi_from_keys
             (fun tag => El "div" [className chipClass] [El "p" [] [Txt tag]])).
  - rewrite (mapi_from_keyedLists
               (fun tag => El "div" [className chipClass] [El "p" [] [Txt tag]])).
    apply flat_map_nil.
Qed.

(** The card, given the text [format] returned. *)
Lemma PostCard_formatted (LocalTZA : Z -> bool -> Z) (p : Post) (formatted : string) :
  DateFns.format LocalTZA (DateFns.parseISO LocalTZA (date p))
    [DateFns.LLLL; DateFns.Lit " "; DateFns.d_; DateFns.Lit ", "; DateFns.yyyy] =
    Ok formatted ->
  exists card,
    (forall s, PostCard LocalTZA p s = (s, Ok card)) /\
    timeTexts (render card) = [formatted] /\
    dateTimes (render card) = [Some (PStr (date p))] /\
    links (render card) = [(title p, url p)] /\
    map textContent (byType "h3" (render card)) = [title p] /\
    map textContent
        (byClass "mt-5 line-clamp-3 text-sm leading-6" (render card)) =
      [description p] /\
    List.length (byType "article" (render card)) = 1%nat /\
    keyedLists card =
      match tags p with
      | Some (t :: ts) => [seq 0 (List.length (t :: ts))]
      | _ => []
      end.
Proof.
  intros Hfmt.
  destruct (tags p) as [[|t ts]|] eqn:Ht.
  - eexists. split.
    { intros s. run_card Hfmt Ht. simpl. unfold ret. reflexivity. }
    unfold timeTexts, links, byType, byClass, dateTimes, byType. repeat split.
  - destruct (chips_run_keys (t :: ts)) as (chips & Hrun & Hrender & Hkeys & Hinner).
    eexists. split.
    { intros s. run_card Hfmt Ht.
      change (0 <? List.length (t :: ts))%nat with true. cbv iota.
      unfold bind at 1. rewrite Hrun. unfold ret. reflexivity. }
    split; [|split; [|split; [|split; [|split; [|split]]]]].
    all: try (simpl render; rewrite app_nil_r, Hrender;
              unfold timeTexts, links; query; reflexivity).
    cbn [keyedLists flat_map app]. rewrite Hkeys, Hinner. reflexivity.
  - eexists. split.
    { intros s. run_card Hfmt Ht. simpl. unfold ret. reflexivity. }
    unfold timeTexts, links, byType, byClass, dateTimes, byType. repeat split.
Qed.

(** * Errors *)

Lemma PostCard_throws_card (LocalTZA : Z -> bool -> Z) (p : Post) (s : Store) :
  PostCard LocalTZA p s = (s, Throw (RangeError "Invalid time value")) \/
  exists card, PostCard LocalTZA p s = (s, Ok card).
Proof.
  destruct (Iso.parse (date p)) eqn:E.
  - right. eexists. apply PostCard_run. unfold validPost. congruence.
  - left. apply PostCard_invalid. unfold validPost. intros H. apply H, E.
Qed.

(** A string without a digit is not a date of either form. *)
Lemma noDigit_parse (s : string) : noDigit s = true -> Iso.parse s = None.
Proof.
  unfold noDigit, Iso.parse. intros H.
  destruct (list_ascii_of_string s) as [|c cs]; [reflexivity|].
  cbn [forallb] in H. apply andb_prop in H. destruct H as [H _].
  cbn [Iso.digits]. destruct (Iso.digit c); [discriminate H | reflexivity].
Qed.

Lemma noDigit_Date_new (s : string) : noDigit s = true -> Date_new s = NaN.
Proof.
  intros H. unfold Date_new. rewrite (noDigit_parse s H). reflexivity.
Qed.

Lemma noDigit_invalid (p : Post) : noDigit (date p) = true -> ~ validPost p.
Proof.
  intros H Hv. apply Hv. apply noDigit_parse. exact H.
Qed.

(** X1. A post whose date holds no decimal digit (an empty date, a word
    such as a draft's placeholder) has no card: [PostCard] throws a
    [RangeError], whatever the other fields and the host's time zone are,
    and leaves the module state as it was. *)
Theorem PostCard_throws_without_a_date
    (LocalTZA : Z -> bool -> Z) (p : Post) (s : Store) :
  noDigit (date p) = true ->
  PostCard LocalTZA p s = (s, Throw (RangeError "Invalid time value")).
Proof.
  intros H. apply PostCard_invalid. apply noDigit_invalid. exact H.
Qed.

Lemma PostCard_throws_without_a_date_witness :
  PostCard hostTZA postUndated2 sampleFeed =
    (sampleFeed, Throw (RangeError "Invalid time value")).
Proof.
  apply (PostCard_throws_without_a_date hostTZA postUndated2 sampleFeed).
  reflexivity.
Defined.

Lemma mapM_from_throw {A B : Type} (f : A -> nat -> M B) (e : Exception)
      (l : list A) (s : Store) :
  (forall x i, In x l ->
     (exists y, f x i s = (s, Ok y)) \/ f x i s = (s, Throw e)) ->
  Exists (fun x => forall i, f x i s = (s, Throw e)) l ->
  forall i, mapM_from i f l s = (s, Throw e).
Proof.
  intros Hall Hex. induction Hex as [x l Hx | x l Hex IH]; intros i.
  - simpl. unfold bind at 1. rewrite Hx. reflexivity.
  - simpl. unfold bind at 1.
    destruct (Hall x i (or_introl eq_refl)) as [[y Hy] | Ht].
    + rewrite Hy. unfold bind at 1.
      rewrite IH; [reflexivity|].
      intros z j Hz. apply Hall. right. exact Hz.
    + rewrite Ht. reflexivity.
Qed.

(** In the model, one card that throws makes the home page throw, after
    the sort. *)
Lemma Home_throw_run (LocalTZA : Z -> bool -> Z) (s : Store) :
  Exists (fun p => ~ validPost p) (allPosts s) ->
  Home LocalTZA s =
    ({| allPosts := JsArray.sort theComparator (allPosts s) |},
     Throw (RangeError "Invalid time value")).
Proof.
  intros Hex.
  assert (Hex' : Exists (fun p => ~ validPost p)
                        (JsArray.sort theComparator (allPosts s))).
  { rewrite Exists_exists in *. destruct Hex as (p & Hin & Hp).
    exists p. split; [apply sort_In; exact Hin | exact Hp]. }
  unfold Home. unfold bind at 1. unfold allPosts_sort.
  change (JsArray.sort _ (allPosts s)) with (JsArray.sort theComparator (allPosts s)).
  cbv iota. unfold bind at 1. unfold mapM.
  rewrite (mapM_from_throw _ (RangeError "Invalid time value")); [reflexivity | |].
  - intros x i _.
    destruct (PostCard_throws_card LocalTZA x
                {| allPosts := JsArray.sort theComparator (allPosts s) |})
      as [Ht | [card Hc]].
    + right. unfold bind. rewrite Ht. reflexivity.
    + left. eexists. unfold bind. rewrite Hc. reflexivity.
  - eapply Exists_impl; [|exact Hex'].
    intros p Hp i. unfold bind.
    rewrite PostCard_invalid; [reflexivity | exact Hp].
Qed.

(** X2. One post whose date holds no decimal digit takes the whole home
    page down: whatever the other posts are, the render throws a
    [RangeError] and no listing is returned, while the shared array still
    holds the same records. *)
Theorem Home_throws_when_a_date_is_unreadable (LocalTZA : Z -> bool -> Z) (s : Store) :
  Exists (fun p => noDigit (date p) = true) (allPosts s) ->
  snd (Home LocalTZA s) = Throw (RangeError "Invalid time value") /\
  Permutation (allPosts (fst (Home LocalTZA s))) (allPosts s).
Proof.
  intros Hex. split.
  - rewrite Home_throw_run; [reflexivity|].
    eapply Exists_impl; [|exact Hex]. intros p. apply noDigit_invalid.
  - rewrite Home_state. apply sort_Permutation.
Qed.

Lemma Home_throws_when_a_date_is_unreadable_witness :
  snd (Home hostTZA draftFeed) = Throw (RangeError "Invalid time value") /\
  Permutation (allPosts (fst (Home hostTZA draftFeed))) (allPosts draftFeed).
Proof.
  apply (Home_throws_when_a_date_is_unreadable hostTZA draftFeed).
  apply Exists_cons_tl, Exists_cons_hd. reflexivity.
Defined.

(** * The comparator and the order *)

Lemma insert_no_positive {A : Type} (comparefn : A -> A -> number) (x : A) (l : list A) :
  (forall y, In y l -> JsArray.SortCompare comparefn x y <= 0) ->
  JsArray.insert comparefn x l = x :: l.
Proof.
  intros H. destruct l as [|y l]; [reflexivity|]. simpl.
  specialize (H y (or_introl eq_refl)).
  destruct (Z.gtb_spec (JsArray.SortCompare comparefn x y) 0); [lia | reflexivity].
Qed.

Lemma sort_no_positive {A : Type} (comparefn : A -> A -> number) (l : list A) :
  (forall x y, In x l -> In y l -> JsArray.SortCompare comparefn x y <= 0) ->
  JsArray.sort comparefn l = l.
Proof.
  induction l as [|x l IH]; intros H; [reflexivity|].
  simpl. rewrite IH.
  - apply insert_no_positive. intros y Hy. apply H; [left; reflexivity | right; exact Hy].
  - intros a b Ha Hb. apply H; right; assumption.
Qed.

(** X3. A post whose date holds no decimal digit compares as a tie with
    every post, on either side: [new Date] gives the Invalid Date, the
    comparator answers [NaN], and the sort counts that as 0.  A feed in
    which no date holds a digit therefore keeps its order. *)
Theorem undated_posts_tie (s : Store) :
  Forall (fun p => noDigit (date p) = true) (allPosts s) ->
  (forall a b, In a (allPosts s) ->
     theComparator a b = NaN /\ theComparator b a = NaN /\
     JsArray.SortCompare theComparator a b = 0 /\
     JsArray.SortCompare theComparator b a = 0) /\
  JsArray.sort theComparator (allPosts s) = allPosts s /\
  forall LocalTZA, fst (Home LocalTZA s) = s.
Proof.
  intros Hall. rewrite Forall_forall in Hall.
  assert (Htie : forall a b, In a (allPosts s) ->
            theComparator a b = NaN /\ theComparator b a = NaN /\
            JsArray.SortCompare theComparator a b = 0 /\
            JsArray.SortCompare theComparator b a = 0).
  { intros a b Ha. unfold JsArray.SortCompare, theComparator.
    rewrite (noDigit_Date_new (date a) (Hall a Ha)),
      compareDesc_NaN_l, compareDesc_NaN_r. auto. }
  assert (Hsort : JsArray.sort theComparator (allPosts s) = allPosts s).
  { apply sort_no_positive. intros x y Hx _.
    destruct (Htie x y Hx) as (_ & _ & H & _). lia. }
  split; [exact Htie|]. split; [exact Hsort|].
  intros LocalTZA. rewrite Home_state, Hsort. destruct s. reflexivity.
Qed.

Lemma undated_posts_tie_witness :
  (forall a b, In a (allPosts draftsOnly) ->
     theComparator a b = NaN /\ theComparator b a = NaN /\
     JsArray.SortCompare theComparator a b = 0 /\
     JsArray.SortCompare theComparator b a = 0) /\
  JsArray.sort theComparator (allPosts draftsOnly) = allPosts draftsOnly /\
  forall LocalTZA, fst (Home LocalTZA draftsOnly) = draftsOnly.
Proof.
  apply (undated_posts_tie draftsOnly).
  repeat constructor.
Defined.

(** X4. On posts of the data model the comparator is consistent: it answers
    -1, 0 or 1 as the first post is later than, as old as, or earlier than
    the second; swapping the arguments flips the sign; and "not after" is
    transitive. *)
Theorem theComparator_consistent (a b c : Post) :
  validPost a -> validPost b -> validPost c ->
  theComparator a b =
    Num (if timeValue a >? timeValue b then -1
         else if timeValue a <? timeValue b then 1 else 0) /\
  JsArray.SortCompare theComparator b a = - JsArray.SortCompare theComparator a b /\
  (JsArray.SortCompare theComparator a b <= 0 ->
   JsArray.SortCompare theComparator b c <= 0 ->
   JsArray.SortCompare theComparator a c <= 0).
Proof.
  intros Ha Hb Hc. unfold JsArray.SortCompare, theComparator.
  rewrite (validPost_Date_new a Ha), (validPost_Date_new b Hb),
    (validPost_Date_new c Hc), !compareDesc_Num.
  split; [reflexivity|].
  destruct (Z.gtb_spec (timeValue a) (timeValue b)),
           (Z.ltb_spec (timeValue a) (timeValue b)),
           (Z.gtb_spec (timeValue b) (timeValue a)),
           (Z.ltb_spec (timeValue b) (timeValue a)),
           (Z.gtb_spec (timeValue b) (timeValue c)),
           (Z.ltb_spec (timeValue b) (timeValue c)),
           (Z.gtb_spec (timeValue a) (timeValue c)),
           (Z.ltb_spec (timeValue a) (timeValue c)); lia.
Qed.

Lemma theComparator_consistent_witness :
  theComparator postDocker postNestjs =
    Num (if timeValue postDocker >? timeValue postNestjs then -1
         else if timeValue postDocker <? timeValue postNestjs then 1 else 0) /\
  JsArray.SortCompare theComparator postNestjs postDocker =
    - JsArray.SortCompare theComparator postDocker postNestjs /\
  (JsArray.SortCompare theComparator postDocker postNestjs <= 0 ->
   JsArray.SortCompare theComparator postNestjs postHello <= 0 ->
   JsArray.SortCompare theComparator postDocker postHello <= 0).
Proof.
  apply (theComparator_consistent postDocker postNestjs postHello);
    intros H; vm_compute in H; discriminate H.
Defined.

Lemma newestFirst_sorted (l : list Post) :
  Forall validPost l -> newestFirst l -> StronglySorted (keyGe timeValue) l.
Proof.
  induction 1 as [|x l Hx Hl IH]; intros Hn; [constructor|].
  constructor.
  - apply IH. intros i j a b Hij Hi Hj.
    apply (Hn (S i) (S j) a b); [lia | exact Hi | exact Hj].
  - rewrite Forall_forall. intros y Hy.
    destruct (In_nth_error _ _ Hy) as [j Hj].
    apply dateGe_timeValue; [exact Hx | |].
    + rewrite Forall_forall in Hl. apply Hl, Hy.
    + apply (Hn 0%nat (S j) x y); [lia | reflexivity | exact Hj].
Qed.

(** X5. The sort is stable on posts of the data model: posts that carry the
    same instant stay in the order the feed had them. *)
Theorem Home_keeps_feed_order_of_equal_dates
    (LocalTZA : Z -> bool -> Z) (s : Store) (k : Z) :
  Forall validPost (allPosts s) ->
  withKey timeValue k (allPosts (fst (Home LocalTZA s))) =
  withKey timeValue k (allPosts s).
Proof.
  intros Hv. rewrite Home_state. simpl allPosts.
  apply (sort_stable theComparator timeValue validPost theComparator_key). exact Hv.
Qed.

Lemma Home_keeps_feed_order_of_equal_dates_witness :
  withKey timeValue 1704067200000
          (allPosts (fst (Home hostTZA
                            {| allPosts := [postHello; postNestjs; postDocker; postTwin] |}))) =
  withKey timeValue 1704067200000 [postHello; postNestjs; postDocker; postTwin].
Proof.
  apply (Home_keeps_feed_order_of_equal_dates hostTZA
           {| allPosts := [postHello; postNestjs; postDocker; postTwin] |}).
  repeat constructor; intros H; vm_compute in H; discriminate H.
Defined.

(** X6. A feed of the data model that is already listed newest first is
    left exactly as it is: the home page then writes nothing new into the
    shared array. *)
Theorem Home_leaves_sorted_feed (LocalTZA : Z -> bool -> Z) (s : Store) :
  Forall validPost (allPosts s) ->
  newestFirst (allPosts s) ->
  fst (Home LocalTZA s) = s.
Proof.
  intros Hv Hn. rewrite Home_state.
  rewrite (sort_of_sorted theComparator timeValue validPost theComparator_key);
    [destruct s; reflexivity | exact Hv | apply newestFirst_sorted; assumption].
Qed.

Lemma sortedFeed_newestFirst : newestFirst (allPosts sortedFeed).
Proof.
  apply sorted_newestFirst.
  - repeat constructor; intros H; vm_compute in H; discriminate H.
  - repeat constructor; unfold keyGe; vm_compute; discriminate.
Qed.

Lemma Home_leaves_sorted_feed_witness : fst (Home hostTZA sortedFeed) = sortedFeed.
Proof.
  apply (Home_leaves_sorted_feed hostTZA sortedFeed).
  - repeat constructor; intros H; vm_compute in H; discriminate H.
  - exact sortedFeed_newestFirst.
Defined.

Lemma withKey_In {A : Type} (key : A -> Z) (l : list A) (x : A) :
  In x l <-> In x (withKey key (key x) l).
Proof.
  unfold withKey. rewrite filter_In. rewrite Z.eqb_refl. tauto.
Qed.

(** X7. On posts of the data model the order of the listing is fully
    determined: any arrangement that is newest first and keeps the feed
    order among posts of one instant is the arrangement the home page
    leaves in the shared array. *)
Theorem Home_order_is_determined
    (LocalTZA : Z -> bool -> Z) (s : Store) (arrangement : list Post) :
  Forall validPost (allPosts s) ->
  newestFirst arrangement ->
  (forall k, withKey timeValue k arrangement = withKey timeValue k (allPosts s)) ->
  arrangement = allPosts (fst (Home LocalTZA s)).
Proof.
  intros Hv Hn Hk. rewrite Home_state. simpl allPosts.
  assert (Hva : Forall validPost arrangement).
  { rewrite Forall_forall. intros x Hx. rewrite Forall_forall in Hv. apply Hv.
    apply (proj2 (withKey_In timeValue (allPosts s) x)). rewrite <- Hk.
    apply (proj1 (withKey_In timeValue arrangement x)). exact Hx. }
  apply (sorted_stable_unique timeValue).
  - apply newestFirst_sorted; assumption.
  - apply (sort_sorted theComparator timeValue validPost theComparator_key). exact Hv.
  - intros k. rewrite Hk. symmetry.
    apply (sort_stable theComparator timeValue validPost theComparator_key). exact Hv.
Qed.

Lemma Home_order_is_determined_witness :
  allPosts sortedFeed =
  allPosts (fst (Home hostTZA
                   {| allPosts := [postHello; postNestjs; postDocker; postTwin] |})).
Proof.
  apply (Home_order_is_determined hostTZA
           {| allPosts := [postHello; postNestjs; postDocker; postTwin] |}
           (allPosts sortedFeed)).
  - repeat constructor; intros H; vm_compute in H; discriminate H.
  - exact sortedFeed_newestFirst.
  - intros k. unfold withKey. cbn [allPosts sortedFeed filter].
    change (timeValue postDocker) with 1718440200000.
    change (timeValue postNestjs) with 1704067200000.
    change (timeValue postTwin) with 1704067200000.
    change (timeValue postHello) with 1703980800000.
    destruct (Z.eqb_spec 1718440200000 k), (Z.eqb_spec 1704067200000 k),
             (Z.eqb_spec 1703980800000 k); try reflexivity; lia.
Defined.

(** X8. The sort is in place and the listing reads the array it sorted: on
    posts of the data model, the shared array is newest first once the home
    page has run, and the cards are the cards of the array's posts, in the
    array's order. *)
Theorem Home_shows_the_array_it_sorted (LocalTZA : Z -> bool -> Z) (s : Store) :
  Forall validPost (allPosts s) ->
  exists page,
    Home LocalTZA s = (fst (Home LocalTZA s), Ok page) /\
    newestFirst (allPosts (fst (Home LocalTZA s))) /\
    byType "article" (render page) =
      flat_map (PostCard_markup LocalTZA) (allPosts (fst (Home LocalTZA s))) /\
    dateTimes (byType "article" (render page)) =
      map (fun post => Some (PStr (date post))) (allPosts (fst (Home LocalTZA s))).
Proof.
  intros Hv.
  destruct (Home_run LocalTZA s Hv) as (page & Hrun & Hcards).
  pose proof (sort_Forall theComparator validPost (allPosts s) Hv) as Hsv.
  exists page. rewrite Home_state. simpl allPosts.
  split; [exact Hrun|]. split.
  - apply sorted_newestFirst; [exact Hsv|].
    apply (sort_sorted theComparator timeValue validPost theComparator_key). exact Hv.
  - split; [exact Hcards|]. rewrite Hcards. apply dateTimes_cards. exact Hsv.
Qed.

Lemma Home_shows_the_array_it_sorted_witness :
  exists page,
    Home hostTZA sampleFeed = (fst (Home hostTZA sampleFeed), Ok page) /\
    newestFirst (allPosts (fst (Home hostTZA sampleFeed))) /\
    byType "article" (render page) =
      flat_map (PostCard_markup hostTZA) (allPosts (fst (Home hostTZA sampleFeed))) /\
    dateTimes (byType "article" (render page)) =
      map (fun post => Some (PStr (date post))) (allPosts (fst (Home hostTZA sampleFeed))).
Proof.
  apply (Home_shows_the_array_it_sorted hostTZA sampleFeed).
  repeat constructor; intros H; vm_compute in H; discriminate H.
Defined.

(** * What a card shows *)

(** X10. The card of a post of the data model is one [article]; its only
    link points to the post's [url] and is labelled with the title, its
    [time] element carries the date string as it is in the record, and the
    description is there, whatever the tags. *)
Theorem PostCard_shows_the_post (LocalTZA : Z -> bool -> Z) (p : Post) (s : Store) :
  validPost p ->
  exists card,
    PostCard LocalTZA p s = (s, Ok card) /\
    List.length (byType "article" (render card)) = 1%nat /\
    links (render card) = [(title p, url p)] /\
    map textContent (byType "h3" (render card)) = [title p] /\
    dateTimes (render card) = [Some (PStr (date p))] /\
    map textContent
        (byClass "mt-5 line-clamp-3 text-sm leading-6" (render card)) =
      [description p].
Proof.
  intros Hv.
  destruct (validPost_format LocalTZA p
              [DateFns.LLLL; DateFns.Lit " "; DateFns.d_; DateFns.Lit ", ";
               DateFns.yyyy] Hv) as [formatted Hfmt].
  destruct (PostCard_formatted LocalTZA p formatted Hfmt)
    as (card & Hrun & _ & Hd & Hl & Hh & Hp & Ha & _).
  exists card. rewrite Hrun. auto 10.
Qed.

Lemma PostCard_shows_the_post_witness :
  exists card,
    PostCard hostTZA postDocker sampleFeed = (sampleFeed, Ok card) /\
    List.length (byType "article" (render card)) = 1%nat /\
    links (render card) = [(title postDocker, url postDocker)] /\
    map textContent (byType "h3" (render card)) = [title postDocker] /\
    dateTimes (render card) = [Some (PStr (date postDocker))] /\
    map textContent
        (byClass "mt-5 line-clamp-3 text-sm leading-6" (render card)) =
      [description postDocker].
Proof.
  apply (PostCard_shows_the_post hostTZA postDocker sampleFeed).
  intros H; vm_compute in H; discriminate H.
Defined.

(** X11. For a post dated by a calendar date [YYYY-MM-DD], on a host at
    any fixed offset from UTC, the card shows that very calendar date:
    month name, day, year. *)
Theorem PostCard_shows_the_written_date
    (c : Z) (p : Post) (s : Store) (ds : Iso.DateString) :
  Iso.parse (date p) = Some ds ->
  Iso.time ds = None ->
  exists card,
    PostCard (fixedOffset c) p s = (s, Ok card) /\
    timeTexts (render card) = [longDate (Iso.year ds) (Iso.month ds) (Iso.day ds)].
Proof.
  intros Hp Ht. destruct (parse_fields _ _ Hp) as (Hm & Hd & _).
  destruct (PostCard_formatted (fixedOffset c) p
              (longDate (Iso.year ds) (Iso.month ds) (Iso.day ds)))
    as (card & Hrun & Htext & _).
  - rewrite (parseISO_date_only c _ ds Hp Ht), format_longDate.
    unfold ES.LocalTime, fixedOffset.
    replace (ES.MakeDay (Iso.year ds) (Iso.month ds - 1) (Iso.day ds) * ES.msPerDay - c + c)
      with (ES.MakeDay (Iso.year ds) (Iso.month ds - 1) (Iso.day ds) * ES.msPerDay + 0)
      by lia.
    rewrite Day_of_day_time by (unfold ES.msPerDay; lia).
    rewrite longDateOfDay_MakeDay by assumption. reflexivity.
  - exists card. rewrite Hrun. auto.
Qed.

Lemma PostCard_shows_the_written_date_witness :
  exists card,
    PostCard (fixedOffset (-18000000)) postHello sampleFeed = (sampleFeed, Ok card) /\
    timeTexts (render card) = [longDate 2023 12 31].
Proof.
  apply (PostCard_shows_the_written_date (-18000000) postHello sampleFeed
           {| Iso.year := 2023; Iso.month := 12; Iso.day := 31; Iso.time := None |});
    reflexivity.
Defined.

(** X12. For a post dated by an instant [...Z], the card shows the
    calendar date of that instant on the host's clock: the written date
    shifted by as many days as the time of day plus the host's offset
    carries.  It is the written date exactly when that sum stays inside the
    day; at UTC midnight, a host west of Greenwich shows the day before. *)
Theorem PostCard_shows_the_local_date
    (c : Z) (p : Post) (s : Store) (ds : Iso.DateString) (t : Iso.TimeOfDay) :
  Iso.parse (date p) = Some ds ->
  Iso.time ds = Some t ->
  let written := ES.MakeDay (Iso.year ds) (Iso.month ds - 1) (Iso.day ds) in
  let carry := (Iso.timeOfDay (Some t) + c) / ES.msPerDay in
  exists card,
    PostCard (fixedOffset c) p s = (s, Ok card) /\
    timeTexts (render card) = [longDateOfDay (written + carry)] /\
    longDateOfDay written = longDate (Iso.year ds) (Iso.month ds) (Iso.day ds) /\
    (carry = 0 <-> 0 <= Iso.timeOfDay (Some t) + c < ES.msPerDay) /\
    (Iso.timeOfDay (Some t) = 0 -> - ES.msPerDay <= c < 0 -> carry = -1).
Proof.
  intros Hp Ht written carry. destruct (parse_fields _ _ Hp) as (Hm & Hd & Htod).
  rewrite Ht in Htod.
  destruct (PostCard_formatted (fixedOffset c) p (longDateOfDay (written + carry)))
    as (card & Hrun & Htext & _).
  - rewrite (parseISO_instant (fixedOffset c) _ ds t Hp Ht), format_longDate.
    unfold ES.LocalTime, fixedOffset. rewrite utcTime_split, Ht.
    fold written. do 2 f_equal. subst carry. unfold ES.Day, ES.msPerDay.
    Z.to_euclidean_division_equations; lia.
  - exists card. rewrite Hrun. split; [reflexivity|]. split; [exact Htext|].
    split; [apply longDateOfDay_MakeDay; assumption|].
    subst carry. unfold ES.msPerDay in *.
    split; [split; intros H|intros H0 Hc];
      Z.to_euclidean_division_equations; lia.
Qed.

Lemma PostCard_shows_the_local_date_witness :
  exists card,
    PostCard (fixedOffset (-18000000)) postMidnight sampleFeed = (sampleFeed, Ok card) /\
    timeTexts (render card) = [longDateOfDay (ES.MakeDay 2024 (1 - 1) 1 + (0 + -18000000) / ES.msPerDay)] /\
    longDateOfDay (ES.MakeDay 2024 (1 - 1) 1) = longDate 2024 1 1 /\
    ((0 + -18000000) / ES.msPerDay = 0 <-> 0 <= 0 + -18000000 < ES.msPerDay) /\
    (0 = 0 -> - ES.msPerDay <= -18000000 < 0 -> (0 + -18000000) / ES.msPerDay = -1).
Proof.
  apply (PostCard_shows_the_local_date (-18000000) postMidnight sampleFeed
           {| Iso.year := 2024; Iso.month := 1; Iso.day := 1;
              Iso.time := Some {| Iso.hours := 0; Iso.minutes := 0;
                                  Iso.seconds := 0; Iso.milliseconds := 0 |} |}
           {| Iso.hours := 0; Iso.minutes := 0; Iso.seconds := 0; Iso.milliseconds := 0 |});
    reflexivity.
Defined.

(** The post dated at UTC midnight of the first of January shows the
    thirty-first of December five hours west of Greenwich. *)
Lemma postMidnight_west_of_Greenwich :
  exists card,
    PostCard (fixedOffset (-18000000)) postMidnight sampleFeed = (sampleFeed, Ok card) /\
    timeTexts (render card) = ["December 31, 2023"] /\
    dateTimes (render card) = [Some (PStr "2024-01-01T00:00:00.000Z")].
Proof. eexists. split; [vm_compute; reflexivity|]. split; reflexivity. Qed.

(** The text [format] prints for a calendar date and for an instant, on a
    host at a fixed offset. *)
Lemma format_date_only (c : Z) (s : string) (ds : Iso.DateString) :
  Iso.parse s = Some ds -> Iso.time ds = None ->
  DateFns.format (fixedOffset c) (DateFns.parseISO (fixedOffset c) s)
    [DateFns.LLLL; DateFns.Lit " "; DateFns.d_; DateFns.Lit ", "; DateFns.yyyy] =
  Ok (longDate (Iso.year ds) (Iso.month ds) (Iso.day ds)).
Proof.
  intros Hp Ht. destruct (parse_fields _ _ Hp) as (Hm & Hd & _).
  rewrite (parseISO_date_only c _ ds Hp Ht), format_longDate.
  unfold ES.LocalTime, fixedOffset.
  replace (ES.MakeDay (Iso.year ds) (Iso.month ds - 1) (Iso.day ds) * ES.msPerDay - c + c)
    with (ES.MakeDay (Iso.year ds) (Iso.month ds - 1) (Iso.day ds) * ES.msPerDay + 0)
    by lia.
  rewrite Day_of_day_time by (unfold ES.msPerDay; lia).
  rewrite longDateOfDay_MakeDay by assumption. reflexivity.
Qed.

Lemma format_instant (c : Z) (s : string) (ds : Iso.DateString) (t : Iso.TimeOfDay) :
  Iso.parse s = Some ds -> Iso.time ds = Some t ->
  DateFns.format (fixedOffset c) (DateFns.parseISO (fixedOffset c) s)
    [DateFns.LLLL; DateFns.Lit " "; DateFns.d_; DateFns.Lit ", "; DateFns.yyyy] =
  Ok (longDateOfDay (ES.MakeDay (Iso.year ds) (Iso.month ds - 1) (Iso.day ds) +
                     (Iso.timeOfDay (Some t) + c) / ES.msPerDay)).
Proof.
  intros Hp Ht. destruct (parse_fields _ _ Hp) as (_ & _ & Htod).
  rewrite Ht in Htod.
  rewrite (parseISO_instant (fixedOffset c) _ ds t Hp Ht), format_longDate.
  unfold ES.LocalTime, fixedOffset. rewrite utcTime_split, Ht.
  do 2 f_equal. unfold ES.Day, ES.msPerDay.
  Z.to_euclidean_division_equations; lia.
Qed.

Lemma timeTexts_app (l1 l2 : list Html) :
  timeTexts (l1 ++ l2) = timeTexts l1 ++ timeTexts l2.
Proof.
  unfold timeTexts, byType. rewrite select_app, map_app. reflexivity.
Qed.

Lemma PostCard_markup_timeTexts (LocalTZA : Z -> bool -> Z) (p : Post) (formatted : string) :
  DateFns.format LocalTZA (DateFns.parseISO LocalTZA (date p))
    [DateFns.LLLL; DateFns.Lit " "; DateFns.d_; DateFns.Lit ", "; DateFns.yyyy] =
    Ok formatted ->
  timeTexts (PostCard_markup LocalTZA p) = [formatted].
Proof.
  intros Hfmt.
  destruct (PostCard_formatted LocalTZA p formatted Hfmt) as (card & Hrun & Htext & _).
  unfold PostCard_markup. rewrite Hrun. exact Htext.
Qed.

(** X9. The listing is ordered by the instants [new Date] reads, which are
    UTC, while each card shows the date on the host's clock.  So a post
    dated by an instant later on the day of a post dated by that calendar
    date is listed first, and on a host far enough west for that instant to
    fall on the evening before, the listing shows the day before above the
    day: the dates shown are not in descending order. *)
Theorem Home_can_show_an_earlier_date_first
    (c : Z) (a b : Post) (da db : Iso.DateString) (t : Iso.TimeOfDay) :
  Iso.parse (date a) = Some da -> Iso.time da = None ->
  Iso.parse (date b) = Some db -> Iso.time db = Some t ->
  Iso.year db = Iso.year da -> Iso.month db = Iso.month da ->
  Iso.day db = Iso.day da ->
  0 < Iso.timeOfDay (Some t) ->
  - ES.msPerDay < Iso.timeOfDay (Some t) + c < 0 ->
  let written := ES.MakeDay (Iso.year da) (Iso.month da - 1) (Iso.day da) in
  exists page,
    Home (fixedOffset c) {| allPosts := [a; b] |} = ({| allPosts := [b; a] |}, Ok page) /\
    timeTexts (byType "article" (render page)) =
      [longDateOfDay (written - 1); longDateOfDay written] /\
    longDateOfDay written = longDate (Iso.year da) (Iso.month da) (Iso.day da).
Proof.
  intros Ha Hta Hb Htb Ey Em Ed Htod Hc written.
  destruct (parse_fields _ _ Ha) as (Hm & Hd & _).
  assert (Va : validPost a) by (unfold validPost; congruence).
  assert (Vb : validPost b) by (unfold validPost; congruence).
  assert (Ka : timeValue a = written * ES.msPerDay).
  { unfold timeValue, Date_new. rewrite Ha, utcTime_split, Hta.
    cbn [Iso.timeOfDay]. fold written. lia. }
  assert (Kb : timeValue b = written * ES.msPerDay + Iso.timeOfDay (Some t)).
  { unfold timeValue, Date_new. rewrite Hb, utcTime_split, Htb, Ey, Em, Ed.
    reflexivity. }
  assert (Hsort : JsArray.sort theComparator [a; b] = [b; a]).
  { cbn [JsArray.sort fold_right JsArray.insert].
    rewrite (theComparator_key a b Va Vb), Ka, Kb.
    destruct (Z.ltb_spec (written * ES.msPerDay)
                (written * ES.msPerDay + Iso.timeOfDay (Some t))); [reflexivity | lia]. }
  destruct (Home_run (fixedOffset c) {| allPosts := [a; b] |}) as (page & Hrun & Hcards).
  { repeat constructor; assumption. }
  cbn [allPosts] in Hrun, Hcards. rewrite Hsort in Hrun, Hcards.
  exists page. split; [exact Hrun|]. split.
  - rewrite Hcards. cbn [flat_map]. rewrite app_nil_r, timeTexts_app.
    rewrite (PostCard_markup_timeTexts (fixedOffset c) b _
               (format_instant c (date b) db t Hb Htb)).
    rewrite (PostCard_markup_timeTexts (fixedOffset c) a _
               (format_date_only c (date a) da Ha Hta)).
    rewrite Ey, Em, Ed. fold written.
    replace ((Iso.timeOfDay (Some t) + c) / ES.msPerDay) with (-1)
      by (unfold ES.msPerDay in *; Z.to_euclidean_division_equations; lia).
    replace (written + -1) with (written - 1) by lia.
    cbn [app]. f_equal. f_equal. symmetry.
    apply longDateOfDay_MakeDay; assumption.
  - apply longDateOfDay_MakeDay; assumption.
Qed.

Lemma Home_can_show_an_earlier_date_first_witness :
  exists page,
    Home (fixedOffset (-18000000)) {| allPosts := [postNestjs; postSmallHours] |} =
      ({| allPosts := [postSmallHours; postNestjs] |}, Ok page) /\
    timeTexts (byType "article" (render page)) =
      [longDateOfDay (ES.MakeDay 2024 (1 - 1) 1 - 1);
       longDateOfDay (ES.MakeDay 2024 (1 - 1) 1)] /\
    longDateOfDay (ES.MakeDay 2024 (1 - 1) 1) = longDate 2024 1 1.
Proof.
  apply (Home_can_show_an_earlier_date_first (-18000000) postNestjs postSmallHours
           {| Iso.year := 2024; Iso.month := 1; Iso.day := 1; Iso.time := None |}
           {| Iso.year := 2024; Iso.month := 1; Iso.day := 1;
              Iso.time := Some {| Iso.hours := 2; Iso.minutes := 0;
                                  Iso.seconds := 0; Iso.milliseconds := 0 |} |}
           {| Iso.hours := 2; Iso.minutes := 0; Iso.seconds := 0; Iso.milliseconds := 0 |});
    try reflexivity.
  vm_compute. split; reflexivity.
Defined.

(** On that host the two cards read "December 31, 2023" above
    "January 1, 2024". *)
Lemma smallHours_west_of_Greenwich :
  longDateOfDay (ES.MakeDay 2024 (1 - 1) 1 - 1) = "December 31, 2023" /\
  longDateOfDay (ES.MakeDay 2024 (1 - 1) 1) = "January 1, 2024".
Proof. split; reflexivity. Qed.

(** * Dates in calendar order *)

Lemma DayFromYear_succ (y : Z) :
  ES.DayFromYear (y + 1) =
  ES.DayFromYear y + 365 + (if ES.InLeapYear y then 1 else 0).
Proof.
  unfold ES.DayFromYear, ES.InLeapYear.
  destruct (((y mod 4 =? 0) && negb (y mod 100 =? 0)) || (y mod 400 =? 0)) eqn:E;
    Z.to_euclidean_division_equations; lia.
Qed.

Lemma DayFromYear_le (y1 y2 : Z) :
  y1 <= y2 -> ES.DayFromYear y1 <= ES.DayFromYear y2.
Proof.
  unfold ES.DayFromYear. intros H. Z.to_euclidean_division_equations; lia.
Qed.

Ltac month_cases m :=
  let H := fresh "Hcases" in
  assert (H : m = 0 \/ m = 1 \/ m = 2 \/ m = 3 \/ m = 4 \/ m = 5 \/ m = 6 \/
              m = 7 \/ m = 8 \/ m = 9 \/ m = 10 \/ m = 11) by lia;
  repeat (destruct H as [-> | H]); [ .. | subst m ].

Ltac eval_months :=
  repeat match goal with
         | |- context [Z.to_nat ?k] =>
             let n := eval vm_compute in (Z.to_nat k) in
             change (Z.to_nat k) with n
         end;
  cbn [ES.DaysBeforeMonth ES.DaysInMonth Z.of_nat Pos.of_succ_nat Pos.succ] in *.

Lemma MakeDay_in_year (y m d : Z) :
  0 <= m <= 11 -> 1 <= d <= ES.DaysInMonth y m ->
  ES.DayFromYear y <= ES.MakeDay y m d < ES.DayFromYear (y + 1).
Proof.
  intros Hm Hd. rewrite DayFromYear_succ. unfold ES.MakeDay.
  rewrite (Z.div_small m 12), (Z.mod_small m 12), Z.add_0_r by lia.
  month_cases m; eval_months; destruct (ES.InLeapYear y); lia.
Qed.

Lemma MakeDay_month_lt (y m1 d1 m2 d2 : Z) :
  0 <= m1 <= 11 -> 1 <= d1 <= ES.DaysInMonth y m1 ->
  0 <= m2 <= 11 -> 1 <= d2 <= ES.DaysInMonth y m2 ->
  m1 < m2 ->
  ES.MakeDay y m1 d1 < ES.MakeDay y m2 d2.
Proof.
  intros Hm1 Hd1 Hm2 Hd2 Hlt. unfold ES.MakeDay.
  rewrite (Z.div_small m1 12), (Z.mod_small m1 12),
    (Z.div_small m2 12), (Z.mod_small m2 12), Z.add_0_r by lia.
  month_cases m1; month_cases m2; try lia;
    eval_months; destruct (ES.InLeapYear y); lia.
Qed.

Lemma MakeDay_day_lt (y m d1 d2 : Z) :
  d1 < d2 -> ES.MakeDay y m d1 < ES.MakeDay y m d2.
Proof. unfold ES.MakeDay. lia. Qed.

(** Later calendar day, larger day number. *)
Lemma MakeDay_lt (y1 m1 d1 y2 m2 d2 : Z) :
  0 <= m1 <= 11 -> 1 <= d1 <= ES.DaysInMonth y1 m1 ->
  0 <= m2 <= 11 -> 1 <= d2 <= ES.DaysInMonth y2 m2 ->
  y1 < y2 \/ (y1 = y2 /\ (m1 < m2 \/ (m1 = m2 /\ d1 < d2))) ->
  ES.MakeDay y1 m1 d1 < ES.MakeDay y2 m2 d2.
Proof.
  intros Hm1 Hd1 Hm2 Hd2 [Hy | [-> [Hm | [-> Hd]]]].
  - pose proof (MakeDay_in_year y1 m1 d1 Hm1 Hd1).
    pose proof (MakeDay_in_year y2 m2 d2 Hm2 Hd2).
    pose proof (DayFromYear_le (y1 + 1) y2). lia.
  - apply MakeDay_month_lt; assumption.
  - apply MakeDay_day_lt; assumption.
Qed.

Lemma utcTime_lt (s1 s2 : string) (a b : Iso.DateString) :
  Iso.parse s1 = Some a -> Iso.parse s2 = Some b ->
  calendarLt a b -> Iso.utcTime a < Iso.utcTime b.
Proof.
  intros Ha Hb Hlt.
  destruct (parse_fields _ _ Ha) as (Hma & Hda & Hta).
  destruct (parse_fields _ _ Hb) as (Hmb & Hdb & Htb).
  rewrite !utcTime_split. unfold ES.msPerDay in *.
  unfold calendarLt in Hlt.
  assert (Hd : ES.MakeDay (Iso.year a) (Iso.month a - 1) (Iso.day a) <
               ES.MakeDay (Iso.year b) (Iso.month b - 1) (Iso.day b) \/
               (ES.MakeDay (Iso.year a) (Iso.month a - 1) (Iso.day a) =
                ES.MakeDay (Iso.year b) (Iso.month b - 1) (Iso.day b) /\
                Iso.timeOfDay (Iso.time a) < Iso.timeOfDay (Iso.time b))).
  { destruct Hlt as [Hy | [Ey [Hm | [Em [Hd | [Ed Ht]]]]]].
    - left. apply MakeDay_lt; try lia.
    - left. apply MakeDay_lt; try lia.
    - left. apply MakeDay_lt; try lia.
    - right. rewrite Ey, Em, Ed. split; [reflexivity | exact Ht]. }
  lia.
Qed.

(** The order of the time values is the order of the written dates. *)
Lemma dateGe_calendar (a b : Post) (da db : Iso.DateString) :
  Iso.parse (date a) = Some da -> Iso.parse (date b) = Some db ->
  (dateGe a b <-> ~ calendarLt da db).
Proof.
  intros Ha Hb.
  assert (Va : validPost a) by (unfold validPost; congruence).
  assert (Vb : validPost b) by (unfold validPost; congruence).
  rewrite (dateGe_timeValue a b Va Vb).
  unfold timeValue, Date_new. rewrite Ha, Hb.
  split.
  - intros Hge Hlt. pose proof (utcTime_lt _ _ da db Ha Hb Hlt). lia.
  - intros Hn.
    destruct (Z.lt_trichotomy (Iso.year da) (Iso.year db)) as [H | [Ey | H]];
      [exfalso; apply Hn; left; exact H | | ].
    2:{ assert (calendarLt db da) by (left; lia).
        pose proof (utcTime_lt _ _ db da Hb Ha H0). lia. }
    destruct (Z.lt_trichotomy (Iso.month da) (Iso.month db)) as [H | [Em | H]];
      [exfalso; apply Hn; right; split; [exact Ey | left; exact H] | | ].
    2:{ assert (calendarLt db da) by (right; split; [lia | left; lia]).
        pose proof (utcTime_lt _ _ db da Hb Ha H0). lia. }
    destruct (Z.lt_trichotomy (Iso.day da) (Iso.day db)) as [H | [Ed | H]];
      [exfalso; apply Hn; right; split; [exact Ey|];
       right; split; [exact Em | left; exact H] | | ].
    2:{ assert (calendarLt db da)
          by (right; split; [lia|]; right; split; [lia | left; lia]).
        pose proof (utcTime_lt _ _ db da Hb Ha H0). lia. }
    assert (Ht : ~ Iso.timeOfDay (Iso.time da) < Iso.timeOfDay (Iso.time db)).
    { intros Ht. apply Hn. right. split; [exact Ey|]. right. split; [exact Em|].
      right. split; [exact Ed | exact Ht]. }
    rewrite !utcTime_split, Ey, Em, Ed. lia.
Qed.

(** A feed of the data model sorted by its time values is newest first by
    its written dates. *)
Lemma sorted_calendarNewestFirst (l : list Post) :
  Forall validPost l -> StronglySorted (keyGe timeValue) l -> calendarNewestFirst l.
Proof.
  intros Hv Hs i j a b Hij Hi Hj.
  pose proof (sorted_newestFirst l Hv Hs i j a b Hij Hi Hj) as Hge.
  rewrite Forall_forall in Hv.
  assert (Va : validPost a) by (apply Hv; eapply nth_error_In; eassumption).
  assert (Vb : validPost b) by (apply Hv; eapply nth_error_In; eassumption).
  unfold validPost in Va, Vb.
  destruct (Iso.parse (date a)) as [da|] eqn:Ea; [|congruence].
  destruct (Iso.parse (date b)) as [db|] eqn:Eb; [|congruence].
  exists da, db. split; [exact Ea|]. split; [exact Eb|].
  apply (dateGe_calendar a b da db Ea Eb). exact Hge.
Qed.

(** C1. For every list of posts of the data model (each date an ISO-8601
    date), the home page returns a page whose cards are exactly the cards of
    the posts, one per post, each carrying its post's date, and the posts
    shown are in descending date order: whenever A is shown before B,
    date(A) >= date(B), both on the time values the comparator sees and on
    the dates as they are written (year, month, day, time of day). *)
Theorem Home_lists_posts_newest_first (LocalTZA : Z -> bool -> Z) (s : Store) :
  Forall validPost (allPosts s) ->
  exists page shown,
    snd (Home LocalTZA s) = Ok page /\
    Permutation shown (allPosts s) /\
    Forall2 (fun post card => PostCard_markup LocalTZA post = [card])
            shown (byType "article" (render page)) /\
    List.length (byType "article" (render page)) = List.length (allPosts s) /\
    dateTimes (byType "article" (render page)) =
      map (fun post => Some (PStr (date post))) shown /\
    newestFirst shown /\
    calendarNewestFirst shown.
Proof.
  intros Hv.
  destruct (Home_run LocalTZA s Hv) as (page & Hrun & Hcards).
  pose proof (sort_Forall theComparator validPost (allPosts s) Hv) as Hsv.
  pose proof (sort_sorted theComparator timeValue validPost theComparator_key
                (allPosts s) Hv) as Hsorted.
  exists page, (JsArray.sort theComparator (allPosts s)).
  split; [rewrite Hrun; reflexivity|].
  split; [apply sort_Permutation|].
  assert (Hcard : Forall2 (fun post card => PostCard_markup LocalTZA post = [card])
                          (JsArray.sort theComparator (allPosts s))
                          (byType "article" (render page))).
  { rewrite Hcards. apply flat_map_Forall2_singleton.
    eapply Forall_impl; [|exact Hsv].
    intros p Hp. destruct (PostCard_markup_article LocalTZA p Hp) as (h & Hm & _).
    exists h. exact Hm. }
  split; [exact Hcard|].
  split.
  { rewrite <- (Forall2_length Hcard). apply sort_length. }
  split; [rewrite Hcards; apply dateTimes_cards; exact Hsv|].
  split.
  - apply sorted_newestFirst; assumption.
  - apply sorted_calendarNewestFirst; assumption.
Qed.

Lemma Home_lists_posts_newest_first_witness :
  exists page shown,
    snd (Home hostTZA sampleFeed) = Ok page /\
    Permutation shown (allPosts sampleFeed) /\
    Forall2 (fun post card => PostCard_markup hostTZA post = [card])
            shown (byType "article" (render page)) /\
    List.length (byType "article" (render page)) = List.length (allPosts sampleFeed) /\
    dateTimes (byType "article" (render page)) =
      map (fun post => Some (PStr (date post))) shown /\
    newestFirst shown /\
    calendarNewestFirst shown.
Proof.
  apply (Home_lists_posts_newest_first hostTZA sampleFeed).
  repeat constructor; intros H; vm_compute in H; discriminate H.
Defined.

(** X13. The listing is in calendar order: on posts of the data model, no
    post stands before a post whose written date (year, month, day, time of
    day) is later. *)
Theorem Home_lists_in_calendar_order (LocalTZA : Z -> bool -> Z) (s : Store)
    (i j : nat) (a b : Post) (da db : Iso.DateString) :
  Forall validPost (allPosts s) ->
  (i < j)%nat ->
  nth_error (allPosts (fst (Home LocalTZA s))) i = Some a ->
  nth_error (allPosts (fst (Home LocalTZA s))) j = Some b ->
  Iso.parse (date a) = Some da ->
  Iso.parse (date b) = Some db ->
  ~ calendarLt da db.
Proof.
  intros Hv Hij Hi Hj Ha Hb. rewrite Home_state in Hi, Hj. simpl allPosts in Hi, Hj.
  apply (dateGe_calendar a b da db Ha Hb).
  pose proof (sort_Forall theComparator validPost (allPosts s) Hv) as Hsv.
  apply (sorted_newestFirst (JsArray.sort theComparator (allPosts s)) Hsv
           (sort_sorted theComparator timeValue validPost theComparator_key _ Hv)
           i j a b Hij Hi Hj).
Qed.

Lemma Home_lists_in_calendar_order_witness :
  ~ calendarLt
      {| Iso.year := 2024; Iso.month := 6; Iso.day := 15;
         Iso.time := Some {| Iso.hours := 8; Iso.minutes := 30;
                             Iso.seconds := 0; Iso.milliseconds := 0 |} |}
      {| Iso.year := 2024; Iso.month := 1; Iso.day := 1; Iso.time := None |}.
Proof.
  apply (Home_lists_in_calendar_order hostTZA sampleFeed 0 1 postDocker postNestjs).
  - repeat constructor; intros H; vm_compute in H; discriminate H.
  - lia.
  - vm_compute. reflexivity.
  - vm_compute. reflexivity.
  - reflexivity.
  - reflexivity.
Defined.

(** * The page shell *)

Lemma select_skip (test : Html -> bool) (ty : string)
      (pr : list (string * PropValue)) (ch : list Html) :
  test (HEl ty pr ch) = false ->
  select test [HEl ty pr ch] = select test ch.
Proof.
  intros H. rewrite select_cons, H, select_nil, app_nil_r. reflexivity.
Qed.

Lemma select_keep (test : Html -> bool) (ty : string)
      (pr : list (string * PropValue)) (ch : list Html) :
  test (HEl ty pr ch) = true ->
  select test [HEl ty pr ch] = HEl ty pr ch :: select test ch.
Proof.
  intros H. rewrite select_cons, H, select_nil, app_nil_r. reflexivity.
Qed.

Lemma select_cons2 (test : Html -> bool) (h1 h2 : Html) (rest : list Html) :
  select test (h1 :: h2 :: rest) = select test [h1] ++ select test (h2 :: rest).
Proof. apply (select_app test [h1] (h2 :: rest)). Qed.

Ltac select_closed :=
  repeat match goal with
         | |- context [select ?t ?l] =>
             lazymatch l with
             | context [render] => fail
             | _ => let v := eval vm_compute in (select t l) in
                    change (select t l) with v
             end
         end.

Ltac shell_query :=
  repeat first [ rewrite select_skip by reflexivity
               | rewrite select_keep by reflexivity
               | rewrite select_cons2 ];
  select_closed;
  cbn [app]; rewrite ?app_nil_r.

(** X14. The root layout returns for every content, leaves the state alone,
    and only wraps: the content sits in [main], after the header and before
    the footer; the layout adds the four navigation links in front of the
    content's links and adds no card, no date and no tag chip of its own. *)
Theorem RootLayout_wraps_its_children (content : Node) (s : Store) :
  exists tree header footer,
    RootLayout content s = (s, Ok tree) /\
    Header s = (s, Ok header) /\
    Footer s = (s, Ok footer) /\
    byType "main" (render tree) =
      HEl "main" [] [HEl "Container" [] (render content)]
      :: byType "main" (render content) /\
    byType "header" (render tree) =
      render header ++ byType "header" (render content) /\
    byType "footer" (render tree) =
      byType "footer" (render content) ++ render footer /\
    links (render tree) =
      [("Home", "/"); ("Post", "/posts"); ("Tags", "/tags"); ("About", "/about")]
      ++ links (render content) /\
    byType "article" (render tree) = byType "article" (render content) /\
    dateTimes (render tree) = dateTimes (render content) /\
    byClass chipClass (render tree) = byClass chipClass (render content).
Proof.
  eexists. eexists. eexists.
  split; [reflexivity|]. split; [reflexivity|]. split; [reflexivity|].
  simpl render. rewrite !app_nil_r.
  unfold links, dateTimes, byType, byClass.
  repeat split; shell_query; reflexivity.
Qed.

Lemma RootLayout_run (content : Node) (s : Store) :
  exists tree,
    RootLayout content s = (s, Ok tree) /\
    byType "article" (render tree) = byType "article" (render content) /\
    dateTimes (render tree) = dateTimes (render content).
Proof.
  eexists. split; [reflexivity|].
  simpl render. rewrite !app_nil_r.
  unfold dateTimes, byType.
  split; shell_query; reflexivity.
Qed.

(** X15. The home route, the home page inside the root layout: on posts of
    the data model it returns, and the document shows the posts' cards and
    their dates in the order of the sorted array, with nothing of the
    layout among them. *)
Theorem route_Home_lists_the_sorted_array (LocalTZA : Z -> bool -> Z) (s : Store) :
  Forall validPost (allPosts s) ->
  exists document,
    route (Home LocalTZA) s = (fst (Home LocalTZA s), Ok document) /\
    byType "article" (render document) =
      flat_map (PostCard_markup LocalTZA) (allPosts (fst (Home LocalTZA s))) /\
    dateTimes (byType "article" (render document)) =
      map (fun post => Some (PStr (date post))) (allPosts (fst (Home LocalTZA s))).
Proof.
  intros Hv.
  destruct (Home_run LocalTZA s Hv) as (page & Hrun & Hcards).
  pose proof (sort_Forall theComparator validPost (allPosts s) Hv) as Hsv.
  destruct (RootLayout_run page {| allPosts := JsArray.sort theComparator (allPosts s) |})
    as (document & Hlayout & Harticles & _).
  exists document. rewrite Home_state. simpl allPosts.
  split.
  - unfold route. unfold bind. rewrite Hrun. exact Hlayout.
  - rewrite Harticles, Hcards. split; [reflexivity|].
    apply dateTimes_cards. exact Hsv.
Qed.

Lemma route_Home_lists_the_sorted_array_witness :
  exists document,
    route (Home hostTZA) sampleFeed = (fst (Home hostTZA sampleFeed), Ok document) /\
    byType "article" (render document) =
      flat_map (PostCard_markup hostTZA) (allPosts (fst (Home hostTZA sampleFeed))) /\
    dateTimes (byType "article" (render document)) =
      map (fun post => Some (PStr (date post))) (allPosts (fst (Home hostTZA sampleFeed))).
Proof.
  apply (route_Home_lists_the_sorted_array hostTZA sampleFeed).
  repeat constructor; intros H; vm_compute in H; discriminate H.
Defined.

(** * Keys *)

Lemma Home_run_keys (LocalTZA : Z -> bool -> Z) (s : Store) :
  Forall validPost (allPosts s) ->
  exists page,
    Home LocalTZA s =
      ({| allPosts := JsArray.sort theComparator (allPosts s) |}, Ok page) /\
    keyedLists page =
      seq 0 (List.length (allPosts s))
      :: flat_map (fun p => keyedLists (PostCard_element LocalTZA p))
                  (JsArray.sort theComparator (allPosts s)).
Proof.
  intros Hv.
  pose proof (sort_Forall theComparator validPost (allPosts s) Hv) as Hsv.
  pose proof (sort_length theComparator (allPosts s)) as Hlen.
  set (sorted := JsArray.sort theComparator (allPosts s)) in *.
  eexists. split.
  - unfold Home. unfold bind at 1. unfold allPosts_sort.
    change (JsArray.sort _ (allPosts s)) with sorted.
    cbv iota. unfold bind at 1. unfold mapM.
    rewrite (mapM_from_ok _ (fun post idx => (idx, PostCard_element LocalTZA post))).
    + unfold ret. reflexivity.
    + intros x i Hx. rewrite Forall_forall in Hsv.
      unfold bind. rewrite (PostCard_run LocalTZA x _ (Hsv x Hx)). reflexivity.
  - cbn [keyedLists flat_map app].
    rewrite (mapi_from_keys (PostCard_element LocalTZA)),
      (mapi_from_keyedLists (PostCard_element LocalTZA)), Hlen, !app_nil_r.
    reflexivity.
Qed.

Lemma PostCard_element_keys (LocalTZA : Z -> bool -> Z) (p : Post) :
  validPost p ->
  keyedLists (PostCard_element LocalTZA p) =
    match tags p with
    | Some (t :: ts) => [seq 0 (List.length (t :: ts))]
    | _ => []
    end.
Proof.
  intros Hv.
  destruct (validPost_format LocalTZA p
              [DateFns.LLLL; DateFns.Lit " "; DateFns.d_; DateFns.Lit ", ";
               DateFns.yyyy] Hv) as [formatted Hfmt].
  destruct (PostCard_formatted LocalTZA p formatted Hfmt)
    as (card & Hrun & _ & _ & _ & _ & _ & _ & Hk).
  unfold PostCard_element. rewrite Hrun. exact Hk.
Qed.

(** X16. Keys are positions: on posts of the data model, the cards of the
    listing are keyed 0, 1, 2, ... in the order shown, and so are the chips
    of every tag row, so the keys of siblings never repeat. *)
Theorem Home_keys_are_positions (LocalTZA : Z -> bool -> Z) (s : Store) :
  Forall validPost (allPosts s) ->
  exists page,
    snd (Home LocalTZA s) = Ok page /\
    hd [] (keyedLists page) = seq 0 (List.length (allPosts s)) /\
    Forall (fun keys => keys = seq 0 (List.length keys) /\ NoDup keys)
           (keyedLists page).
Proof.
  intros Hv.
  destruct (Home_run_keys LocalTZA s Hv) as (page & Hrun & Hkeys).
  pose proof (sort_Forall theComparator validPost (allPosts s) Hv) as Hsv.
  exists page. rewrite Hrun, Hkeys. split; [reflexivity|]. split; [reflexivity|].
  constructor.
  - rewrite length_seq. split; [reflexivity | apply seq_NoDup].
  - rewrite Forall_forall. intros keys Hin.
    apply in_flat_map in Hin. destruct Hin as (p & Hp & Hin).
    rewrite Forall_forall in Hsv.
    rewrite (PostCard_element_keys LocalTZA p (Hsv p Hp)) in Hin.
    destruct (tags p) as [[|t ts]|]; try contradiction.
    destruct Hin as [<- | []].
    rewrite length_seq. split; [reflexivity | apply seq_NoDup].
Qed.

Lemma Home_keys_are_positions_witness :
  exists page,
    snd (Home hostTZA sampleFeed) = Ok page /\
    hd [] (keyedLists page) = seq 0 (List.length (allPosts sampleFeed)) /\
    Forall (fun keys => keys = seq 0 (List.length keys) /\ NoDup keys)
           (keyedLists page).
Proof.
  apply (Home_keys_are_positions hostTZA sampleFeed).
  repeat constructor; intros H; vm_compute in H; discriminate H.
Defined.
